(** * Trafexia: the traffic store and the certificate manager

    A shallow embedding of [electron/main/services/TrafficStorage.ts] and
    [electron/main/services/CertificateManager.ts], with the properties of
    the specification stated and settled against it.

    Conventions.
    - A JS number that holds an id, a status code, a count or a millisecond
      timestamp is a [Z]; the arithmetic of the code stays far below 2^53,
      where doubles are exact.
    - A JS string is a [string]; one [ascii] is one character.
    - A method that starts with [if (!this.x) throw new Error(..)] returns a
      [result]: [Throw msg] for the exception, [Ok v] otherwise.
    - A table of the SQLite file is the list of its rows in rowid order. *)

From Stdlib Require Import ZArith List Bool Ascii Permutation Sorted Lia.
From Stdlib Require String.
From stdpp Require Import base tactics option list sorting strings gmap.
Import ListNotations.

Local Open Scope Z_scope.

(** ** Exceptions *)

Inductive result (A : Type) : Type :=
| Ok (a : A)
| Throw (msg : string).
Arguments Ok {A} a.
Arguments Throw {A} msg.

Definition is_ok {A} (r : result A) : bool :=
  match r with Ok _ => true | Throw _ => false end.

(** ** The fragment of SQLite the statements rely on *)

Module Sqlite.

(** [sqlite3Tolower]: only the 26 ASCII capitals are folded. *)
Definition is_upper (c : ascii) : bool :=
  let n := nat_of_ascii c in (Nat.leb 65 n && Nat.leb n 90)%bool.

Definition to_lower (c : ascii) : ascii :=
  if is_upper c then ascii_of_nat (nat_of_ascii c + 32) else c.

Definition is_wildcard (c : ascii) : bool :=
  (Ascii.eqb c "%"%char || Ascii.eqb c "_"%char)%bool.

(** The default [LIKE] operator (no ESCAPE clause): [%] stands for any
    run of characters, [_] for exactly one, every other character for
    itself up to ASCII case. *)
Fixpoint like (p : list ascii) : list ascii -> bool :=
  match p with
  | [] => fun s => match s with [] => true | _ :: _ => false end
  | c :: p' =>
      if Ascii.eqb c "%"%char then
        fix any (s : list ascii) : bool :=
          (like p' s || match s with [] => false | _ :: s' => any s' end)%bool
      else if Ascii.eqb c "_"%char then
        fun s => match s with [] => false | _ :: s' => like p' s' end
      else
        fun s => match s with
                 | [] => false
                 | d :: s' => (Ascii.eqb (to_lower c) (to_lower d) && like p' s')%bool
                 end
  end.

Definition LIKE (s pat : string) : bool :=
  like (String.list_ascii_of_string pat) (String.list_ascii_of_string s).

(** [x IN (v1, ..., vn)] on integers and on text with the BINARY
    collation. *)
Definition IN_int (x : Z) (vs : list Z) : bool := existsb (Z.eqb x) vs.
Definition IN_text (x : string) (vs : list string) : bool := existsb (String.eqb x) vs.

(** [LIMIT n OFFSET k]: a negative [n] is no bound, a negative [k] is 0. *)
Definition limit_offset {A} (n k : Z) (rows : list A) : list A :=
  let rest := skipn (Z.to_nat k) rows in
  if n <? 0 then rest else firstn (Z.to_nat n) rest.

(** [SELECT DISTINCT]: the first occurrence of each value. *)
Fixpoint distinct (l : list string) : list string :=
  match l with
  | [] => []
  | x :: l' => x :: List.filter (fun y => negb (String.eqb x y)) (distinct l')
  end.

End Sqlite.

(** ** TrafficStorage.ts *)

Module TrafficStorage.

Definition Headers := list (string * string).

(** A row of table [requests]; the two header columns hold the JSON text
    of a string-to-string object, kept here as the object itself. *)
Record RequestDbRow := {
  id : Z;
  timestamp : Z;
  method : string;
  url : string;
  host : string;
  path : string;
  status : Z;
  request_headers : Headers;
  request_body : option string;
  response_headers : Headers;
  response_body : option string;
  content_type : string;
  duration : Z;
  size : Z }.

Record CapturedRequest := {
  cr_id : Z;
  cr_timestamp : Z;
  cr_method : string;
  cr_url : string;
  cr_host : string;
  cr_path : string;
  cr_status : Z;
  requestHeaders : Headers;
  requestBody : option string;
  responseHeaders : Headers;
  responseBody : option string;
  contentType : string;
  cr_duration : Z;
  cr_size : Z }.

Definition mapRowToRequest (row : RequestDbRow) : CapturedRequest :=
  {| cr_id := id row;
     cr_timestamp := timestamp row;
     cr_method := method row;
     cr_url := url row;
     cr_host := host row;
     cr_path := path row;
     cr_status := status row;
     requestHeaders := request_headers row;
     requestBody := request_body row;
     responseHeaders := response_headers row;
     responseBody := response_body row;
     contentType := content_type row;
     cr_duration := duration row;
     cr_size := size row |}.

(** The argument of [updateResponse]. *)
Record ResponseData := {
  rd_status : Z;
  rd_responseHeaders : Headers;
  rd_responseBody : option string;
  rd_contentType : string;
  rd_duration : Z;
  rd_size : Z }.

Record DateRange := { start : Z; end_ : Z }.

(** [FilterOptions] of shared/types, as [getRequests] reads it; every
    field is optional. *)
Record FilterOptions := {
  searchQuery : option string;
  methods : option (list string);
  statusCodes : option (list Z);
  hosts : option (list string);
  contentTypes : option (list string);
  dateRange : option DateRange;
  limit : option Z;
  offset : option Z }.

(** The open database: table [requests] in rowid order and the
    AUTOINCREMENT counter kept in [sqlite_sequence]. *)
Record Database := {
  requests : list RequestDbRow;
  sqlite_sequence : Z }.

(** The object: [this.db] is null until [initialize] and after [close]. *)
Record t := { db : option Database }.

Definition not_initialized {A} : result A := Throw "Database not initialized".

Definition with_requests (d : Database) (rows : list RequestDbRow) : Database :=
  {| requests := rows; sqlite_sequence := sqlite_sequence d |}.

(** *** saveRequest *)

Definition max_rowid (rows : list RequestDbRow) : Z :=
  fold_right (fun r m => Z.max (id r) m) 0 rows.

Definition saveRequest (this : t) (request : CapturedRequest) : result (Z * t) :=
  match db this with
  | None => not_initialized
  | Some d =>
      let rowid := Z.max (sqlite_sequence d) (max_rowid (requests d)) + 1 in
      let row :=
        {| id := rowid;
           timestamp := cr_timestamp request;
           method := cr_method request;
           url := cr_url request;
           host := cr_host request;
           path := cr_path request;
           status := cr_status request;
           request_headers := requestHeaders request;
           request_body := requestBody request;
           response_headers := responseHeaders request;
           response_body := responseBody request;
           content_type := contentType request;
           duration := cr_duration request;
           size := cr_size request |} in
      Ok (rowid, {| db := Some {| requests := requests d ++ [row];
                                   sqlite_sequence := rowid |} |})
  end.

(** *** updateResponse *)

Definition set_response (data : ResponseData) (r : RequestDbRow) : RequestDbRow :=
  {| id := id r;
     timestamp := timestamp r;
     method := method r;
     url := url r;
     host := host r;
     path := path r;
     status := rd_status data;
     request_headers := request_headers r;
     request_body := request_body r;
     response_headers := rd_responseHeaders data;
     response_body := rd_responseBody data;
     content_type := rd_contentType data;
     duration := rd_duration data;
     size := rd_size data |}.

(** [UPDATE requests SET .. WHERE id = ?] *)
Definition update_where_id (i : Z) (data : ResponseData) (rows : list RequestDbRow)
  : list RequestDbRow :=
  map (fun r => if id r =? i then set_response data r else r) rows.

Definition updateResponse (this : t) (i : Z) (data : ResponseData) : result t :=
  match db this with
  | None => not_initialized
  | Some d => Ok {| db := Some (with_requests d (update_where_id i data (requests d))) |}
  end.

(** *** getRequests *)

(** [url LIKE ? OR host LIKE ? OR path LIKE ?] with the parameter
    [`%${searchQuery}%`]. *)
Definition search_clause (q : string) (r : RequestDbRow) : bool :=
  let query := "%" +:+ q +:+ "%" in
  (Sqlite.LIKE (url r) query || Sqlite.LIKE (host r) query || Sqlite.LIKE (path r) query)%bool.

Definition content_type_clause (cts : list string) (r : RequestDbRow) : bool :=
  existsb (fun ct => Sqlite.LIKE (content_type r) ("%" +:+ ct +:+ "%")) cts.

(** A JS string is truthy unless empty; an array condition of the code is
    [a && a.length > 0]; a number is truthy unless 0. *)
Definition truthy_string (o : option string) : option string :=
  match o with
  | Some s => if String.eqb s "" then None else Some s
  | None => None
  end.

Definition non_empty {A} (o : option (list A)) : option (list A) :=
  match o with
  | Some (x :: l) => Some (x :: l)
  | _ => None
  end.

Definition truthy_number (o : option Z) : option Z :=
  match o with
  | Some n => if n =? 0 then None else Some n
  | None => None
  end.

(** The WHERE clause [getRequests] assembles, one conjunct per [if]. *)
Definition where_clause (f : FilterOptions) (r : RequestDbRow) : bool :=
  (match truthy_string (searchQuery f) with
   | Some q => search_clause q r
   | None => true
   end
   && match non_empty (methods f) with
      | Some ms => Sqlite.IN_text (method r) ms
      | None => true
      end
   && match non_empty (statusCodes f) with
      | Some cs => Sqlite.IN_int (status r) cs
      | None => true
      end
   && match non_empty (hosts f) with
      | Some hs => Sqlite.IN_text (host r) hs
      | None => true
      end
   && match non_empty (contentTypes f) with
      | Some cts => content_type_clause cts r
      | None => true
      end
   && match dateRange f with
      | Some dr => (start dr <=? timestamp r) && (timestamp r <=? end_ dr)
      | None => true
      end)%bool.

(** [ORDER BY timestamp DESC]; the order among equal timestamps is the
    one the sort leaves. *)
Definition timestamp_desc (r1 r2 : RequestDbRow) : Prop := timestamp r2 <= timestamp r1.

#[global] Instance timestamp_desc_dec : RelDecision timestamp_desc :=
  fun r1 r2 => Z_le_dec (timestamp r2) (timestamp r1).

Definition order_by_timestamp_desc (rows : list RequestDbRow) : list RequestDbRow :=
  merge_sort timestamp_desc rows.

(** LIMIT is appended only for a truthy [limit], OFFSET only inside that
    branch and only for a truthy [offset]. *)
Definition paginate (f : option FilterOptions) (rows : list RequestDbRow)
  : list RequestDbRow :=
  match f with
  | None => rows
  | Some f =>
      match truthy_number (limit f) with
      | Some n =>
          match truthy_number (offset f) with
          | Some k => Sqlite.limit_offset n k rows
          | None => Sqlite.limit_offset n 0 rows
          end
      | None => rows
      end
  end.

Definition select_requests (d : Database) (filter : option FilterOptions)
  : list RequestDbRow :=
  let matching :=
    match filter with
    | Some f => List.filter (where_clause f) (requests d)
    | None => requests d
    end in
  paginate filter (order_by_timestamp_desc matching).

Definition getRequests (this : t) (filter : option FilterOptions)
  : result (list CapturedRequest) :=
  match db this with
  | None => not_initialized
  | Some d => Ok (map mapRowToRequest (select_requests d filter))
  end.

(** *** getRequestById *)

Definition getRequestById (this : t) (i : Z) : result (option CapturedRequest) :=
  match db this with
  | None => not_initialized
  | Some d => Ok (option_map mapRowToRequest (find (fun r => id r =? i) (requests d)))
  end.

(** *** getRequestCount: only [searchQuery] is read from the filter. *)

Definition count_clause (filter : option FilterOptions) (r : RequestDbRow) : bool :=
  match filter with
  | Some f =>
      match truthy_string (searchQuery f) with
      | Some q => search_clause q r
      | None => true
      end
  | None => true
  end.

Definition getRequestCount (this : t) (filter : option FilterOptions) : result Z :=
  match db this with
  | None => not_initialized
  | Some d => Ok (Z.of_nat (length (List.filter (count_clause filter) (requests d))))
  end.

(** *** getUniqueHosts, getUniqueMethods, getUniqueContentTypes *)

Definition order_by_text (l : list string) : list string := merge_sort String.le l.

Definition getUniqueHosts (this : t) : result (list string) :=
  match db this with
  | None => not_initialized
  | Some d => Ok (order_by_text (Sqlite.distinct (map host (requests d))))
  end.

Definition getUniqueMethods (this : t) : result (list string) :=
  match db this with
  | None => not_initialized
  | Some d => Ok (order_by_text (Sqlite.distinct (map method (requests d))))
  end.

Definition getUniqueContentTypes (this : t) : result (list string) :=
  match db this with
  | None => not_initialized
  | Some d =>
      let rows := List.filter (fun r => negb (String.eqb (content_type r) "")) (requests d) in
      Ok (order_by_text (Sqlite.distinct (map content_type rows)))
  end.

(** *** deleteRequest, clearAll, deleteOlderThan *)

Definition deleteRequest (this : t) (i : Z) : result t :=
  match db this with
  | None => not_initialized
  | Some d =>
      Ok {| db := Some (with_requests d (List.filter (fun r => negb (id r =? i)) (requests d))) |}
  end.

Definition clearAll (this : t) : result t :=
  match db this with
  | None => not_initialized
  | Some d => Ok {| db := Some (with_requests d []) |}
  end.

(** [now] is the value [Date.now()] returns during the call; [changes] is
    the number of rows the DELETE removed. *)
Definition deleteOlderThan (this : t) (now hours : Z) : result (Z * t) :=
  match db this with
  | None => not_initialized
  | Some d =>
      let cutoff := now - hours * 60 * 60 * 1000 in
      let deleted := List.filter (fun r => timestamp r <? cutoff) (requests d) in
      let kept := List.filter (fun r => negb (timestamp r <? cutoff)) (requests d) in
      Ok (Z.of_nat (length deleted), {| db := Some (with_requests d kept) |})
  end.

(** *** A file that does not exist yet, and the mutating methods

    [initialize] on a new file leaves an empty table and no
    [sqlite_sequence] entry. A database is reached from there by the
    methods that write: [saveRequest], [updateResponse], [deleteRequest],
    [clearAll], [deleteOlderThan]. *)

Definition empty : Database := {| requests := []; sqlite_sequence := 0 |}.

Inductive step : Database -> Database -> Prop :=
| step_saveRequest d request i d' :
    saveRequest {| db := Some d |} request = Ok (i, {| db := Some d' |}) -> step d d'
| step_updateResponse d i data d' :
    updateResponse {| db := Some d |} i data = Ok {| db := Some d' |} -> step d d'
| step_deleteRequest d i d' :
    deleteRequest {| db := Some d |} i = Ok {| db := Some d' |} -> step d d'
| step_clearAll d d' :
    clearAll {| db := Some d |} = Ok {| db := Some d' |} -> step d d'
| step_deleteOlderThan d now hours n d' :
    deleteOlderThan {| db := Some d |} now hours = Ok (n, {| db := Some d' |}) -> step d d'.

Inductive steps : Database -> Database -> Prop :=
| steps_refl d : steps d d
| steps_step d1 d2 d3 : steps d1 d2 -> step d2 d3 -> steps d1 d3.

Definition reachable (d : Database) : Prop := steps empty d.

(** The request as it is read back once stored under [i]. *)
Definition with_id (i : Z) (request : CapturedRequest) : CapturedRequest :=
  {| cr_id := i;
     cr_timestamp := cr_timestamp request;
     cr_method := cr_method request;
     cr_url := cr_url request;
     cr_host := cr_host request;
     cr_path := cr_path request;
     cr_status := cr_status request;
     requestHeaders := requestHeaders request;
     requestBody := requestBody request;
     responseHeaders := responseHeaders request;
     responseBody := responseBody request;
     contentType := contentType request;
     cr_duration := cr_duration request;
     cr_size := cr_size request |}.

(** The exchange with its response half replaced. *)
Definition with_response (data : ResponseData) (request : CapturedRequest) : CapturedRequest :=
  {| cr_id := cr_id request;
     cr_timestamp := cr_timestamp request;
     cr_method := cr_method request;
     cr_url := cr_url request;
     cr_host := cr_host request;
     cr_path := cr_path request;
     cr_status := rd_status data;
     requestHeaders := requestHeaders request;
     requestBody := requestBody request;
     responseHeaders := rd_responseHeaders data;
     responseBody := rd_responseBody data;
     contentType := rd_contentType data;
     cr_duration := rd_duration data;
     cr_size := rd_size data |}.

(** A filter with a limit and an offset set. *)
Definition with_page (f : FilterOptions) (lim off : Z) : FilterOptions :=
  {| searchQuery := searchQuery f; methods := methods f; statusCodes := statusCodes f;
     hosts := hosts f; contentTypes := contentTypes f; dateRange := dateRange f;
     limit := Some lim; offset := Some off |}.

(** What the AUTOINCREMENT key keeps: rowids ascend along the table, are
    positive and never exceed the counter. *)
Definition ids_ok (d : Database) : Prop :=
  StronglySorted Z.lt (map id (requests d)) /\
  Forall (fun r => 0 < id r <= sqlite_sequence d) (requests d) /\
  0 <= sqlite_sequence d.

(** A filter that asks for nothing but a free-text match. *)
Definition search_only (f : FilterOptions) : Prop :=
  non_empty (methods f) = None /\ non_empty (statusCodes f) = None /\
  non_empty (hosts f) = None /\ non_empty (contentTypes f) = None /\
  dateRange f = None /\ truthy_number (limit f) = None.

End TrafficStorage.

(** ** Dates, as the certificate code uses them *)

Module JsDate.

(** A [Date] seen through [getFullYear], [getMonth] (0 to 11), [getDate]
    (1 to 31) and the milliseconds elapsed since local midnight. *)
Record t := {
  getFullYear : Z;
  getMonth : Z;
  getDate : Z;
  msOfDay : Z }.

Definition is_leap (y : Z) : bool :=
  ((y mod 4 =? 0) && (negb (y mod 100 =? 0) || (y mod 400 =? 0)))%bool.

Definition days_in_month (y m : Z) : Z :=
  if m =? 1 then (if is_leap y then 29 else 28)
  else if ((m =? 3) || (m =? 5) || (m =? 8) || (m =? 10))%bool then 30
  else 31.

(** [new Date(y, m, d)] for a month and a day in range: local midnight of
    that day, a day past the end of the month rolling into the next
    month. *)
Definition make (y m d : Z) : t :=
  let dim := days_in_month y m in
  if d <=? dim then {| getFullYear := y; getMonth := m; getDate := d; msOfDay := 0 |}
  else if m =? 11 then {| getFullYear := y + 1; getMonth := 0; getDate := d - dim; msOfDay := 0 |}
  else {| getFullYear := y; getMonth := m + 1; getDate := d - dim; msOfDay := 0 |}.


End JsDate.

(** ** node-forge objects *)

Module Forge.

(** An RSA key pair is known by its modulus size and by the random
    material its generation drew. *)
Record PrivateKey := { sk_bits : Z; sk_material : Z }.
Record PublicKey := { pk_bits : Z; pk_material : Z }.
Record KeyPair := { privateKey : PrivateKey; publicKey : PublicKey }.

Definition keyPairOf (bits material : Z) : KeyPair :=
  {| privateKey := {| sk_bits := bits; sk_material := material |};
     publicKey := {| pk_bits := bits; pk_material := material |} |}.

Record Attribute := { name : string; value : string }.

(** An entry of [altNames], as the code hands it to [setExtensions]:
    [type] 2 is a DNS name, 7 an IP address. *)
Record AltName := { type : Z; an_value : option string; ip : option string }.

(** The usages an extension object switches on with [usage: true]. *)
Inductive KeyUsage := keyCertSign | digitalSignature | cRLSign | keyEncipherment.
Inductive ExtKeyUsage := serverAuth | clientAuth.

(** An extension object: its [name], and the fields the code sets; a
    [critical] that is not set is false. *)
Inductive Extension :=
| basicConstraints (cA critical : bool)
| keyUsage (usages : list KeyUsage) (critical : bool)
| extKeyUsage (usages : list ExtKeyUsage)
| subjectKeyIdentifier
| subjectAltName (altNames : list AltName).

Inductive Digest := sha1 | sha256 | sha384 | sha512.

Record Signature := { signer : PrivateKey; md : Digest }.

(** [Date.now().toString(16) + Math.random().toString(16).substring(2)]:
    the two numbers whose hexadecimal digits are concatenated. *)
Record SerialNumber := { sn_time : Z; sn_random : Z }.

Record Certificate := {
  cert_publicKey : PublicKey;
  serialNumber : SerialNumber;
  notBefore : JsDate.t;
  notAfter : JsDate.t;
  subject : list Attribute;
  issuer : list Attribute;
  extensions : list Extension;
  signature : option Signature }.

(** [cert.sign(key, md)] *)
Definition sign (c : Certificate) (key : PrivateKey) (d : Digest) : Certificate :=
  {| cert_publicKey := cert_publicKey c;
     serialNumber := serialNumber c;
     notBefore := notBefore c;
     notAfter := notAfter c;
     subject := subject c;
     issuer := issuer c;
     extensions := extensions c;
     signature := Some {| signer := key; md := d |} |}.

(** What a file or a PEM string holds: the encodings are lossless, so a
    PEM text is the object it encodes. *)
Inductive Pem :=
| PrivateKeyPem (k : PrivateKey)
| CertificatePem (c : Certificate)
| OtherText (s : string).

Inductive Der := CertificateDer (c : Certificate).

Definition privateKeyToPem (k : PrivateKey) : Pem := PrivateKeyPem k.
Definition certificateToPem (c : Certificate) : Pem := CertificatePem c.

Definition privateKeyFromPem (p : Pem) : result PrivateKey :=
  match p with
  | PrivateKeyPem k => Ok k
  | _ => Throw "Invalid PEM formatted message."
  end.

Definition certificateFromPem (p : Pem) : result Certificate :=
  match p with
  | CertificatePem c => Ok c
  | _ => Throw "Invalid PEM formatted message."
  end.

End Forge.

(** ** The world outside the object: files, randomness, the clock *)

Module World.

Inductive FsOp :=
| MkdirSync (dir : string)
| WriteFileSync (file : string) (data : Forge.Pem)
| RenameSync (from to : string).

Record FileSystem := {
  files : gmap string Forge.Pem;
  dirs : gset string }.

Definition existsSync (p : string) (fs : FileSystem) : bool :=
  (bool_decide (is_Some (files fs !! p)) || bool_decide (p ∈ dirs fs))%bool.

(** The effect of one mutation. *)
Definition apply_op (fs : FileSystem) (op : FsOp) : FileSystem :=
  match op with
  | MkdirSync d => {| files := files fs; dirs := {[d]} ∪ dirs fs |}
  | WriteFileSync f data => {| files := <[f := data]> (files fs); dirs := dirs fs |}
  | RenameSync a b =>
      match files fs !! a with
      | Some data => {| files := <[b := data]> (delete a (files fs)); dirs := dirs fs |}
      | None => fs
      end
  end.

(** What the clock shows at one reading: the milliseconds since the
    epoch, and the same instant as a local [Date]. *)
Record Instant := { epoch_ms : Z; local : JsDate.t }.

(** [random] is the sequence of values the generator will hand out and
    [drawn] how many were taken; [clock] is the sequence of instants the
    clock will show, one for each time it is read, and [reads] how many
    readings were taken; [trace] lists the file-system mutations
    performed so far, oldest first. *)
Record t := {
  fs : FileSystem;
  trace : list FsOp;
  random : nat -> Z;
  drawn : nat;
  clock : nat -> Instant;
  reads : nat }.

Definition perform (op : FsOp) (w : t) : t :=
  {| fs := apply_op (fs w) op;
     trace := trace w ++ [op];
     random := random w;
     drawn := drawn w;
     clock := clock w;
     reads := reads w |}.

Definition draw (w : t) : Z * t :=
  (random w (drawn w),
   {| fs := fs w;
      trace := trace w;
      random := random w;
      drawn := S (drawn w);
      clock := clock w;
      reads := reads w |}).

(** The reading the clock will show [i] readings from now. *)
Definition reading (w : t) (i : nat) : Instant := clock w (i + reads w).

(** One reading of the clock: every reading is a new one. *)
Definition tick (w : t) : Instant * t :=
  (clock w (reads w),
   {| fs := fs w;
      trace := trace w;
      random := random w;
      drawn := drawn w;
      clock := clock w;
      reads := S (reads w) |}).

(** The file-system states a list of mutations passes through, the
    starting state first. *)
Fixpoint states (fs0 : FileSystem) (ops : list FsOp) : list FileSystem :=
  match ops with
  | [] => [fs0]
  | op :: ops' => fs0 :: states (apply_op fs0 op) ops'
  end.

End World.

(** ** CertificateManager.ts *)

Module CertificateManager.
Import Forge.

Record t := {
  certsDir : string;
  caKeyPath : string;
  caCertPath : string;
  caKey : option PrivateKey;
  caCert : option Certificate }.

(** [path.join(a, b)] for two plain segments. *)
Definition path_join (a b : string) : string := a +:+ "/" +:+ b.

Definition new (userDataPath : string) : t :=
  let dir := path_join userDataPath "certificates" in
  {| certsDir := dir;
     caKeyPath := path_join dir "rootCA.key";
     caCertPath := path_join dir "rootCA.crt";
     caKey := None;
     caCert := None |}.

(** *** A method body: it reads and writes [this] and the world, and
    either returns or throws. What was assigned before a throw stays. *)

Definition State : Type := t * World.t.
Definition M (A : Type) : Type := State -> result A * State.

Definition ret {A} (a : A) : M A := fun s => (Ok a, s).
Definition throw {A} (msg : string) : M A := fun s => (Throw msg, s).
Definition bind {A B} (m : M A) (k : A -> M B) : M B :=
  fun s =>
    match m s with
    | (Ok a, s') => k a s'
    | (Throw msg, s') => (Throw msg, s')
    end.

Notation "x <- m ;; k" := (bind m (fun x => k))
  (at level 100, m at next level, right associativity).
Notation "m ;;; k" := (bind m (fun _ => k))
  (at level 100, right associativity).

Definition this : M t := fun s => (Ok (fst s), s).
Definition world : M World.t := fun s => (Ok (snd s), s).
Definition lift {A} (r : result A) : M A := fun s => (r, s).

Definition set_caKey (k : PrivateKey) : M unit :=
  fun s =>
    let o := fst s in
    (Ok tt, ({| certsDir := certsDir o; caKeyPath := caKeyPath o;
                caCertPath := caCertPath o; caKey := Some k; caCert := caCert o |},
             snd s)).

Definition set_caCert (c : Certificate) : M unit :=
  fun s =>
    let o := fst s in
    (Ok tt, ({| certsDir := certsDir o; caKeyPath := caKeyPath o;
                caCertPath := caCertPath o; caKey := caKey o; caCert := Some c |},
             snd s)).

(** *** fs, the generator and the clock *)

Definition existsSync (p : string) : M bool :=
  fun s => (Ok (World.existsSync p (World.fs (snd s))), s).

Definition mkdirSync (p : string) : M unit :=
  fun s => (Ok tt, (fst s, World.perform (World.MkdirSync p) (snd s))).

Definition writeFileSync (p : string) (data : Pem) : M unit :=
  fun s => (Ok tt, (fst s, World.perform (World.WriteFileSync p data) (snd s))).

Definition readFileSync (p : string) : M Pem :=
  fun s =>
    match World.files (World.fs (snd s)) !! p with
    | Some data => (Ok data, s)
    | None => (Throw "ENOENT: no such file or directory", s)
    end.

Definition random_draw : M Z :=
  fun s => let (x, w) := World.draw (snd s) in (Ok x, (fst s, w)).

(** [forge.pki.rsa.generateKeyPair(bits)] *)
Definition generateKeyPair (bits : Z) : M KeyPair :=
  material <- random_draw ;;
  ret (keyPairOf bits material).

(** [Date.now()] and [new Date()]: each one reads the clock. *)
Definition Date_now : M Z :=
  fun s => let (i, w) := World.tick (snd s) in (Ok (World.epoch_ms i), (fst s, w)).
Definition new_Date : M JsDate.t :=
  fun s => let (i, w) := World.tick (snd s) in (Ok (World.local i), (fst s, w)).

(** *** The methods *)

Definition caExists : M bool :=
  o <- this ;;
  k <- existsSync (caKeyPath o) ;;
  if k then existsSync (caCertPath o) else ret false.

Definition loadCA : M unit :=
  o <- this ;;
  keyPem <- readFileSync (caKeyPath o) ;;
  certPem <- readFileSync (caCertPath o) ;;
  k <- lift (privateKeyFromPem keyPem) ;;
  set_caKey k ;;;
  c <- lift (certificateFromPem certPem) ;;
  set_caCert c.

Definition generateSerialNumber : M SerialNumber :=
  n <- Date_now ;;
  r <- random_draw ;;
  ret {| sn_time := n; sn_random := r |}.

Definition caAttrs : list Attribute :=
  [ {| name := "commonName"; value := "Trafexia Root CA" |};
    {| name := "countryName"; value := "VN" |};
    {| name := "organizationName"; value := "Trafexia" |};
    {| name := "organizationalUnitName"; value := "Development" |} ].

Definition generateCA : M unit :=
  keys <- generateKeyPair 2048 ;;
  set_caKey (privateKey keys) ;;;
  serial <- generateSerialNumber ;;
  now <- new_Date ;;
  let cert :=
    {| cert_publicKey := publicKey keys;
       serialNumber := serial;
       notBefore := now;
       notAfter := JsDate.make (JsDate.getFullYear now + 10) (JsDate.getMonth now)
                               (JsDate.getDate now);
       subject := caAttrs;
       issuer := caAttrs;
       extensions :=
         [ basicConstraints true true;
           keyUsage [keyCertSign; digitalSignature; cRLSign] true;
           subjectKeyIdentifier ];
       signature := None |} in
  let cert := sign cert (privateKey keys) sha256 in
  set_caCert cert ;;;
  let keyPem := privateKeyToPem (privateKey keys) in
  let certPem := certificateToPem cert in
  o <- this ;;
  writeFileSync (caKeyPath o) keyPem ;;;
  writeFileSync (caCertPath o) certPem.

Definition initialize : M unit :=
  o <- this ;;
  d <- existsSync (certsDir o) ;;
  (if d then ret tt else mkdirSync (certsDir o)) ;;;
  e <- caExists ;;
  if e then loadCA else generateCA.

(** The test [/^(?:[0-9]{1,3}\.){3}[0-9]{1,3}$/]: the text cut at its
    dots is four groups of one to three decimal digits. *)
Definition is_digit (c : ascii) : bool :=
  let n := nat_of_ascii c in (Nat.leb 48 n && Nat.leb n 57)%bool.

Fixpoint split_dots (s : list ascii) : list (list ascii) :=
  match s with
  | [] => [[]]
  | c :: s' =>
      if Ascii.eqb c "."%char then [] :: split_dots s'
      else match split_dots s' with
           | g :: gs => (c :: g) :: gs
           | [] => [[c]]
           end
  end.

Definition digits_1_3 (g : list ascii) : bool :=
  (forallb is_digit g && Nat.leb 1 (length g) && Nat.leb (length g) 3)%bool.

Definition isIp (domain : string) : bool :=
  let gs := split_dots (String.list_ascii_of_string domain) in
  (Nat.eqb (length gs) 4 && forallb digits_1_3 gs)%bool.

Record ServerCert := { key : Pem; cert : Pem }.

Definition generateServerCert (domain : string) : M ServerCert :=
  o <- this ;;
  match caKey o, caCert o with
  | Some ca_key, Some ca_cert =>
      keys <- generateKeyPair 2048 ;;
      serial <- generateSerialNumber ;;
      now <- new_Date ;;
      let altNames :=
        [ {| type := 2; an_value := Some domain; ip := None |};
          {| type := 2; an_value := Some ("*." +:+ domain); ip := None |} ] in
      let altNames :=
        if isIp domain
        then altNames ++ [ {| type := 7; an_value := None; ip := Some domain |} ]
        else altNames in
      let c :=
        {| cert_publicKey := publicKey keys;
           serialNumber := serial;
           notBefore := now;
           notAfter := JsDate.make (JsDate.getFullYear now + 1) (JsDate.getMonth now)
                                   (JsDate.getDate now);
           subject := [ {| name := "commonName"; value := domain |};
                        {| name := "organizationName"; value := "Trafexia" |} ];
           issuer := subject ca_cert;
           extensions :=
             [ basicConstraints false false;
               keyUsage [digitalSignature; keyEncipherment] false;
               extKeyUsage [serverAuth];
               subjectAltName altNames ];
           signature := None |} in
      let c := sign c ca_key sha256 in
      ret {| key := privateKeyToPem (privateKey keys); cert := certificateToPem c |}
  | _, _ => throw "CA not initialized"
  end.

Definition getCertPath : M string := o <- this ;; ret (caCertPath o).
Definition getKeyPath : M string := o <- this ;; ret (caKeyPath o).

Definition getCertPem : M Pem :=
  o <- this ;;
  match caCert o with
  | Some c => ret (certificateToPem c)
  | None => throw "CA not initialized"
  end.

Definition getKeyPem : M Pem :=
  o <- this ;;
  match caKey o with
  | Some k => ret (privateKeyToPem k)
  | None => throw "CA not initialized"
  end.

Definition getCertDer : M Der :=
  o <- this ;;
  match caCert o with
  | Some c => ret (CertificateDer c)
  | None => throw "CA not initialized"
  end.

(** The states the object can be in: freshly constructed, then after any
    number of [initialize] calls, in any world, thrown or not. *)
Inductive reachable : t -> Prop :=
| reachable_new userDataPath : reachable (new userDataPath)
| reachable_initialize o w : reachable o -> reachable (fst (snd (initialize (o, w)))).

Definition loaded (o : t) : Prop := is_Some (caKey o) /\ is_Some (caCert o).

(** The paths are those the constructor computed, and the certificate is
    never set without the key. *)
Definition well_formed (o : t) : Prop :=
  (exists userDataPath,
     certsDir o = certsDir (new userDataPath) /\
     caKeyPath o = caKeyPath (new userDataPath) /\
     caCertPath o = caCertPath (new userDataPath)) /\
  (is_Some (caCert o) -> is_Some (caKey o)).

(** The world in which [caExists] runs: the directory is there. *)
Definition with_certsDir (o : t) (w : World.t) : World.t :=
  if World.existsSync (certsDir o) (World.fs w) then w
  else World.perform (World.MkdirSync (certsDir o)) w.

Definition both_exist (o : t) (w : World.t) : bool :=
  (World.existsSync (caKeyPath o) (World.fs w) &&
   World.existsSync (caCertPath o) (World.fs w))%bool.

End CertificateManager.

(** ** utils/network.ts *)

Module Network.

Record NetworkInterfaceInfo := {
  family : string;
  internal : bool;
  address : string }.

(** [os.networkInterfaces()]: the interface names in the order
    [Object.keys] lists them, each with its addresses; the type allows an
    entry to be undefined. *)
Definition NetworkInterfaces := list (string * option (list NetworkInterfaceInfo)).

(** [info.family === 'IPv4' && !info.internal] *)
Definition external_ipv4 (info : NetworkInterfaceInfo) : bool :=
  (String.eqb (family info) "IPv4" && negb (internal info))%bool.

(** The inner loop of [getLocalIp], which returns from the function at
    the first address it accepts. *)
Fixpoint first_external (infos : list NetworkInterfaceInfo) : option string :=
  match infos with
  | [] => None
  | info :: rest => if external_ipv4 info then Some (address info) else first_external rest
  end.

Fixpoint getLocalIp_loop (interfaces : NetworkInterfaces) : option string :=
  match interfaces with
  | [] => None
  | (_, None) :: rest => getLocalIp_loop rest
  | (_, Some infos) :: rest =>
      match first_external infos with
      | Some a => Some a
      | None => getLocalIp_loop rest
      end
  end.

Definition getLocalIp (interfaces : NetworkInterfaces) : string :=
  match getLocalIp_loop interfaces with
  | Some a => a
  | None => "127.0.0.1"
  end.

(** The loops of [getAllLocalIps], pushing onto [ips]. *)
Fixpoint push_external (ips : list string) (infos : list NetworkInterfaceInfo) : list string :=
  match infos with
  | [] => ips
  | info :: rest =>
      push_external (if external_ipv4 info then ips ++ [address info] else ips) rest
  end.

Fixpoint getAllLocalIps_loop (ips : list string) (interfaces : NetworkInterfaces)
  : list string :=
  match interfaces with
  | [] => ips
  | (_, None) :: rest => getAllLocalIps_loop ips rest
  | (_, Some infos) :: rest => getAllLocalIps_loop (push_external ips infos) rest
  end.

Definition getAllLocalIps (interfaces : NetworkInterfaces) : list string :=
  let ips := getAllLocalIps_loop [] interfaces in
  if Nat.ltb 0 (length ips) then ips else ["127.0.0.1"%string].

(** The addresses of the interfaces that are IPv4 and not internal, in
    the order the system lists them. *)
Definition external_addresses (interfaces : NetworkInterfaces) : list string :=
  flat_map (fun entry =>
              match snd entry with
              | Some infos => map address (List.filter external_ipv4 infos)
              | None => []
              end) interfaces.

End Network.

(** ** CertServer.ts *)

Module CertServer.

(** [server] tells whether [this.server] holds a server object. *)
Record t := {
  server : bool;
  port : Z;
  running : bool }.

Definition new : t := {| server := false; port := 8889; running := false |}.

(** How [app.listen] ends: its callback runs, or the server emits
    ['error']. *)
Inductive ListenOutcome :=
| listening
| listen_error (err : string).

Definition truthy_port (p : option Z) : option Z :=
  match p with
  | Some n => if n =? 0 then None else Some n
  | None => None
  end.

Definition start (this : t) (p : option Z) (outcome : ListenOutcome) : result unit * t :=
  if running this then (Ok tt, this)
  else
    let port' := match truthy_port p with Some n => n | None => port this end in
    match outcome with
    | listening => (Ok tt, {| server := true; port := port'; running := true |})
    | listen_error err =>
        (Throw err, {| server := true; port := port'; running := running this |})
    end.

Definition stop (this : t) : t :=
  if (negb (server this) || negb (running this))%bool then this
  else {| server := false; port := port this; running := false |}.

Definition isRunning (this : t) : bool := running this.

Inductive reachable : t -> Prop :=
| reachable_new : reachable new
| reachable_start this p outcome : reachable this -> reachable (snd (start this p outcome))
| reachable_stop this : reachable this -> reachable (stop this).

(** What a route handler does to [res], call by call. *)
Inductive Sent :=
| sent_text (s : string)
| sent_pem (p : Forge.Pem)
| sent_der (d : Forge.Der).

Inductive ResCall :=
| res_header (name value : string)
| res_setHeader (name value : string)
| res_status (code : Z)
| res_send (body : Sent)
| res_redirect (path : string).

(** The double quote character, as a string. *)
Definition dquote : string := String (ascii_of_nat 34) EmptyString.

(** The CORS middleware, which runs before every route. *)
Definition cors : list ResCall :=
  [ res_header "Access-Control-Allow-Origin" "*";
    res_header "Access-Control-Allow-Methods" "GET, OPTIONS";
    res_header "Access-Control-Allow-Headers" "Content-Type" ].

(** [GET /cert] *)
Definition get_cert (s : CertificateManager.State) : list ResCall :=
  cors ++
  match fst (CertificateManager.getCertPem s) with
  | Ok certPem =>
      [ res_setHeader "Content-Type" "application/x-pem-file";
        res_setHeader "Content-Disposition" ("attachment; filename=" +:+ dquote +:+ "TrafexiaCA.pem" +:+ dquote);
        res_send (sent_pem certPem) ]
  | Throw _ => [ res_status 500; res_send (sent_text "Failed to get certificate") ]
  end.

(** [GET /cert.der] *)
Definition get_cert_der (s : CertificateManager.State) : list ResCall :=
  cors ++
  match fst (CertificateManager.getCertDer s) with
  | Ok certDer =>
      [ res_setHeader "Content-Type" "application/x-x509-ca-cert";
        res_setHeader "Content-Disposition" ("attachment; filename=" +:+ dquote +:+ "TrafexiaCA.der" +:+ dquote);
        res_send (sent_der certDer) ]
  | Throw _ => [ res_status 500; res_send (sent_text "Failed to get certificate") ]
  end.

(** [GET /] *)
Definition get_root : list ResCall := cors ++ [ res_redirect "/setup" ].

(** The status code of a response: the last [res.status], 302 for a
    redirect, 200 otherwise. *)
Fixpoint status_of (calls : list ResCall) (code : Z) : Z :=
  match calls with
  | [] => code
  | res_status c :: rest => status_of rest c
  | res_redirect _ :: rest => status_of rest 302
  | _ :: rest => status_of rest code
  end.

End CertServer.

(** ** utils/formatters.ts and the exporters of ipc-handlers.ts *)

Module Formatters.

(** [s.substring(0, e)]: a negative [e] counts as 0, an [e] past the end
    as the length. *)
Definition substring_to (e : Z) (s : string) : string :=
  String.substring 0 (Z.to_nat e) s.

(** [maxLength] is [None] when the caller leaves it out. *)
Definition truncateUrl (url : string) (maxLength : option Z) : string :=
  let maxLength := match maxLength with Some m => m | None => 80 end in
  if Z.of_nat (String.length url) <=? maxLength then url
  else substring_to (maxLength - 3) url +:+ "...".

(** [s.replace(/a/g, b)] for single characters. *)
Fixpoint replace_char (a b : ascii) (s : string) : string :=
  match s with
  | EmptyString => EmptyString
  | String c s' => String (if Ascii.eqb c a then b else c) (replace_char a b s')
  end.

(** [token.split('.')] *)
Definition split_on_dots (s : string) : list string :=
  map String.string_of_list_ascii
      (CertificateManager.split_dots (String.list_ascii_of_string s)).

Section Jwt.

(** The two platform functions [decodeJwt] calls; each returns or
    throws. *)
Variable Json : Type.
Variable atob : string -> result string.
Variable JSON_parse : string -> result Json.

(** [JSON.parse(atob(part.replace(/-/g, '+').replace(/_/g, '/')))] *)
Definition decode_part (part : string) : result Json :=
  match atob (replace_char "_" "/" (replace_char "-" "+" part)) with
  | Ok text => JSON_parse text
  | Throw msg => Throw msg
  end.

(** [null] is [None]; whatever is thrown inside the [try] gives [null]. *)
Definition decodeJwt (token : string) : option (Json * Json) :=
  match split_on_dots token with
  | [p0; p1; _] =>
      match decode_part p0 with
      | Ok header =>
          match decode_part p1 with
          | Ok payload => Some (header, payload)
          | Throw _ => None
          end
      | Throw _ => None
      end
  | _ => None
  end.

End Jwt.

(** [key.toLowerCase()], as far as a comparison with an ASCII word can
    tell: the ASCII capitals are folded, and no other character
    lowercases to a letter of [host] or [content-length]. *)
Fixpoint toLowerCase (s : string) : string :=
  match s with
  | EmptyString => EmptyString
  | String c s' => String (Sqlite.to_lower c) (toLowerCase s')
  end.

Definition newline : string := String (ascii_of_nat 10) EmptyString.
Definition backslash : string := String (ascii_of_nat 92) EmptyString.
Definition quote : string := String (ascii_of_nat 39) EmptyString.

(** [body.replace(/'/g, "'\\''")]: every single quote becomes the four
    characters quote, backslash, quote, quote. *)
Fixpoint escape_quotes (s : string) : string :=
  match s with
  | EmptyString => EmptyString
  | String c s' =>
      if Ascii.eqb c (ascii_of_nat 39)
      then quote +:+ backslash +:+ quote +:+ quote +:+ escape_quotes s'
      else String c (escape_quotes s')
  end.

(** The loop over [Object.entries(request.requestHeaders)], adding a
    [-H] line for every header [keep] accepts. *)
Definition header_line (key value : string) : string :=
  " " +:+ backslash +:+ newline +:+ "  -H " +:+ quote +:+ key +:+ ": " +:+ value +:+ quote.

Fixpoint add_headers (keep : string -> bool) (headers : TrafficStorage.Headers)
    (curl : string) : string :=
  match headers with
  | [] => curl
  | (key, value) :: rest =>
      add_headers keep rest (if keep key then curl +:+ header_line key value else curl)
  end.

Definition add_body (body : option string) (curl : string) : string :=
  match TrafficStorage.truthy_string body with
  | Some b =>
      curl +:+ " " +:+ backslash +:+ newline +:+ "  -d " +:+ quote +:+ escape_quotes b +:+ quote
  | None => curl
  end.

Definition curl_head (request : TrafficStorage.CapturedRequest) : string :=
  "curl -X " +:+ TrafficStorage.cr_method request +:+ " " +:+ quote
  +:+ TrafficStorage.cr_url request +:+ quote.

Definition not_host (key : string) : bool :=
  negb (String.eqb (toLowerCase key) "host").

Definition not_host_nor_length (key : string) : bool :=
  (negb (String.eqb (toLowerCase key) "host")
   && negb (String.eqb (toLowerCase key) "content-length"))%bool.

(** [exportAsCurl] of ipc-handlers.ts *)
Definition exportAsCurl (request : TrafficStorage.CapturedRequest) : string :=
  add_body (TrafficStorage.requestBody request)
    (add_headers not_host (TrafficStorage.requestHeaders request) (curl_head request)).

(** [generateCurl] of formatters.ts *)
Definition generateCurl (request : TrafficStorage.CapturedRequest) : string :=
  add_body (TrafficStorage.requestBody request)
    (add_headers not_host_nor_length (TrafficStorage.requestHeaders request)
       (curl_head request)).

(** The request with some of its request headers. *)
Definition with_requestHeaders (headers : TrafficStorage.Headers)
    (request : TrafficStorage.CapturedRequest) : TrafficStorage.CapturedRequest :=
  {| TrafficStorage.cr_id := TrafficStorage.cr_id request;
     TrafficStorage.cr_timestamp := TrafficStorage.cr_timestamp request;
     TrafficStorage.cr_method := TrafficStorage.cr_method request;
     TrafficStorage.cr_url := TrafficStorage.cr_url request;
     TrafficStorage.cr_host := TrafficStorage.cr_host request;
     TrafficStorage.cr_path := TrafficStorage.cr_path request;
     TrafficStorage.cr_status := TrafficStorage.cr_status request;
     TrafficStorage.requestHeaders := headers;
     TrafficStorage.requestBody := TrafficStorage.requestBody request;
     TrafficStorage.responseHeaders := TrafficStorage.responseHeaders request;
     TrafficStorage.responseBody := TrafficStorage.responseBody request;
     TrafficStorage.contentType := TrafficStorage.contentType request;
     TrafficStorage.cr_duration := TrafficStorage.cr_duration request;
     TrafficStorage.cr_size := TrafficStorage.cr_size request |}.

End Formatters.

(** ** The reader of an exported command: a POSIX shell *)

Module Shell.

(** Characters that stand for themselves outside quotes: letters,
    digits, and the signs - _ . / *)
Definition plain (c : ascii) : bool :=
  let n := nat_of_ascii c in
  ((Nat.leb 48 n && Nat.leb n 57) || (Nat.leb 65 n && Nat.leb n 90)
   || (Nat.leb 97 n && Nat.leb n 122)
   || Nat.eqb n 45 || Nat.eqb n 95 || Nat.eqb n 46 || Nat.eqb n 47)%bool.

(** Where the reader is: between two words, inside a word outside
    quotes, or inside single quotes. *)
Inductive State := Gap | Word | Quoted.

(** Puts characters in front of the word being read. *)
Definition push (w : list ascii) (r : option (list (list ascii)))
    : option (list (list ascii)) :=
  match r with
  | Some (x :: xs) => Some ((w ++ x) :: xs)
  | _ => None
  end.

(** The words of a command line. Inside single quotes every character
    stands for itself up to the closing quote. Outside, a space ends the
    word, a backslash before a newline continues the line, a backslash
    before another character makes it stand for itself, and a plain
    character stands for itself; the reader gives up ([None]) on
    anything else and on an open quote. In the states [Word] and
    [Quoted] the first word of the result is the rest of the word being
    read. *)
Fixpoint split (st : State) (s : list ascii) : option (list (list ascii)) :=
  match s with
  | [] =>
      match st with
      | Gap => Some []
      | Word => Some [[]]
      | Quoted => None
      end
  | c :: rest =>
      match st with
      | Quoted =>
          if Ascii.eqb c (ascii_of_nat 39) then split Word rest
          else push [c] (split Quoted rest)
      | _ =>
          if Ascii.eqb c (ascii_of_nat 39) then split Quoted rest
          else if Ascii.eqb c (ascii_of_nat 92) then
            match rest with
            | [] => None
            | d :: rest' =>
                if Ascii.eqb d (ascii_of_nat 10) then split st rest'
                else push [d] (split Word rest')
            end
          else if Ascii.eqb c (ascii_of_nat 32) then
            match st with
            | Word => option_map (cons []) (split Gap rest)
            | _ => split Gap rest
            end
          else if plain c then push [c] (split Word rest)
          else None
      end
  end.




End Shell.

(** ** The chips of FilterPanel.vue *)

Module FilterPanel.

(** [selected.indexOf(x)], [None] for -1. *)
Fixpoint indexOf (x : string) (selected : list string) : option nat :=
  match selected with
  | [] => None
  | y :: rest => if String.eqb y x then Some O else option_map S (indexOf x rest)
  end.

(** [selected.splice(idx, 1)] *)
Fixpoint splice1 (idx : nat) (selected : list string) : list string :=
  match selected, idx with
  | [], _ => []
  | _ :: rest, O => rest
  | y :: rest, S i => y :: splice1 i rest
  end.

(** The list that [toggleMethod] and [toggleStatus] leave. *)
Definition toggle (x : string) (selected : list string) : list string :=
  match indexOf x selected with
  | Some idx => splice1 idx selected
  | None => selected ++ [x]
  end.

End FilterPanel.

(** ** The request selection of the export handler (ipc-handlers.ts) *)

Module Ipc.

(** [ids.map(f)] for an [f] that may throw. *)
Fixpoint map_result {A B} (f : A -> result B) (l : list A) : result (list B) :=
  match l with
  | [] => Ok []
  | x :: rest =>
      match f x with
      | Throw msg => Throw msg
      | Ok y =>
          match map_result f rest with
          | Throw msg => Throw msg
          | Ok ys => Ok (y :: ys)
          end
      end
  end.

(** [.filter(r => r !== null)] *)
Fixpoint non_null {A} (l : list (option A)) : list A :=
  match l with
  | [] => []
  | Some x :: rest => x :: non_null rest
  | None :: rest => non_null rest
  end.

Definition limit_10000 : TrafficStorage.FilterOptions :=
  {| TrafficStorage.searchQuery := None; TrafficStorage.methods := None;
     TrafficStorage.statusCodes := None; TrafficStorage.hosts := None;
     TrafficStorage.contentTypes := None; TrafficStorage.dateRange := None;
     TrafficStorage.limit := Some 10000; TrafficStorage.offset := None |}.

(** The requests the REQUESTS_EXPORT handler writes out. *)
Definition export_requests (trafficStorage : TrafficStorage.t) (ids : option (list Z))
  : result (list TrafficStorage.CapturedRequest) :=
  match TrafficStorage.non_empty ids with
  | Some ids =>
      match map_result (TrafficStorage.getRequestById trafficStorage) ids with
      | Ok found => Ok (non_null found)
      | Throw msg => Throw msg
      end
  | None => TrafficStorage.getRequests trafficStorage (Some limit_10000)
  end.

End Ipc.

(** ** Sample data *)

Module Examples.
Import TrafficStorage.

Definition exchange (i ts : Z) (m h p : string) (st : Z) (ct : string) : RequestDbRow :=
  {| id := i; timestamp := ts; method := m; url := "http://" +:+ h +:+ p;
     host := h; path := p; status := st;
     request_headers := [("Host", h)]; request_body := None;
     response_headers := []; response_body := None;
     content_type := ct; duration := 12; size := 0 |}.

(** Three exchanges with methods GET, POST, GET; the second one is
    still pending. *)
Definition three_rows : Database :=
  {| requests :=
       [ exchange 1 1000 "GET" "example.test" "/" 200 "text/html";
         exchange 2 3000 "POST" "api.example.test" "/login" 0 "";
         exchange 3 2000 "GET" "example.test" "/x?y=1" 204 "application/json" ];
     sqlite_sequence := 3 |}.

Definition store : t := {| db := Some three_rows |}.

Definition not_found : ResponseData :=
  {| rd_status := 404; rd_responseHeaders := []; rd_responseBody := Some "gone";
     rd_contentType := "text/plain"; rd_duration := 7; rd_size := 4 |}.

Definition only_methods (ms : list string) : FilterOptions :=
  {| searchQuery := None; methods := Some ms; statusCodes := None;
     hosts := None; contentTypes := None; dateRange := None;
     limit := None; offset := None |}.

Definition only_status (cs : list Z) : FilterOptions :=
  {| searchQuery := None; methods := None; statusCodes := Some cs;
     hosts := None; contentTypes := None; dateRange := None;
     limit := None; offset := None |}.

Definition only_offset (k : Z) : FilterOptions :=
  {| searchQuery := None; methods := None; statusCodes := None;
     hosts := None; contentTypes := None; dateRange := None;
     limit := None; offset := Some k |}.

(** The retention scenario: rows two hours and thirty minutes old. *)
Definition t_now : Z := 1700000000000.

Definition two_ages : Database :=
  {| requests :=
       [ exchange 1 (t_now - 7200000) "GET" "example.test" "/old" 200 "text/html";
         exchange 2 (t_now - 1800000) "GET" "example.test" "/new" 200 "text/html" ];
     sqlite_sequence := 2 |}.

(** A clock that is a quarter of a second further at every reading. *)
Definition clock_from (ms0 : Z) (d0 : JsDate.t) (n : nat) : World.Instant :=
  {| World.epoch_ms := Z.of_nat n * 250 + ms0;
     World.local := {| JsDate.getFullYear := JsDate.getFullYear d0;
                       JsDate.getMonth := JsDate.getMonth d0;
                       JsDate.getDate := JsDate.getDate d0;
                       JsDate.msOfDay := Z.of_nat n * 250 + JsDate.msOfDay d0 |} |}.

(** A first run: nothing on disk, a generator that never repeats itself,
    and a clock that starts at 14 November 2023, 22:13:20 local time. *)
Definition first_run : World.t :=
  {| World.fs := {| World.files := ∅; World.dirs := ∅ |};
     World.trace := [];
     World.random := fun n => 7919 * Z.of_nat n + 17;
     World.drawn := 0;
     World.clock :=
       clock_from t_now {| JsDate.getFullYear := 2023; JsDate.getMonth := 10;
                           JsDate.getDate := 14; JsDate.msOfDay := 80000000 |};
     World.reads := 0 |}.

Definition manager : CertificateManager.t := CertificateManager.new "/data".

Definition initialized : CertificateManager.State :=
  Eval vm_compute in snd (CertificateManager.initialize (manager, first_run)).

End Examples.

(** ** What the specification says, in the terms of the model *)

Module Spec.
Import TrafficStorage.

(** The row's response has been written. *)
Definition completed (d : Database) (i : Z) : Prop :=
  exists r, In r (requests d) /\ id r = i /\ status r <> 0.

(** A status-code bucket, named by its first code: 200 for 2xx, and so
    on; its inclusive range is the hundred codes from there. *)
Definition is_bucket (c : Z) : Prop := In c [200; 300; 400; 500].
Definition in_bucket (c s : Z) : Prop := c <= s <= c + 99.

(** Case-insensitive substring. *)
Definition fold_case (s : list ascii) : list ascii := map Sqlite.to_lower s.

Definition contains_ci (q s : string) : Prop :=
  exists pre mid post,
    String.list_ascii_of_string s = pre ++ mid ++ post /\
    fold_case mid = fold_case (String.list_ascii_of_string q).

Definition wildcard_free (q : string) : Prop :=
  Forall (fun c => Sqlite.is_wildcard c = false) (String.list_ascii_of_string q).

(** The predicates of a filter, each one in force when its field is
    present and not empty. *)
Definition satisfies (f : FilterOptions) (r : RequestDbRow) : Prop :=
  (forall q, searchQuery f = Some q -> q <> "" ->
     let pat := "%" +:+ q +:+ "%" in
     Sqlite.LIKE (url r) pat = true \/ Sqlite.LIKE (host r) pat = true \/
     Sqlite.LIKE (path r) pat = true) /\
  (forall ms, methods f = Some ms -> ms <> [] -> In (method r) ms) /\
  (forall cs, statusCodes f = Some cs -> cs <> [] -> In (status r) cs) /\
  (forall hs, hosts f = Some hs -> hs <> [] -> In (host r) hs) /\
  (forall cts, contentTypes f = Some cts -> cts <> [] ->
     exists ct, In ct cts /\ Sqlite.LIKE (content_type r) ("%" +:+ ct +:+ "%") = true) /\
  (forall dr, dateRange f = Some dr -> start dr <= timestamp r <= end_ dr).

(** The window a limit and an offset select, the offset applied whether
    or not a limit is given. *)
Definition window (lim off : option Z) (rows : list RequestDbRow) : list RequestDbRow :=
  let rest := match off with Some k => skipn (Z.to_nat k) rows | None => rows end in
  match lim with Some n => firstn (Z.to_nat n) rest | None => rest end.

Definition without_window (f : FilterOptions) : FilterOptions :=
  {| searchQuery := searchQuery f; methods := methods f; statusCodes := statusCodes f;
     hosts := hosts f; contentTypes := contentTypes f; dateRange := dateRange f;
     limit := None; offset := None |}.











(** No state of the file system along the way holds exactly one of the
    two files. *)
Definition never_one_of_two (a b : string) (sts : list World.FileSystem) : Prop :=
  Forall (fun fs => World.existsSync a fs = World.existsSync b fs) sts.




(** A certificate chains to an issuer certificate: it names the issuer's
    subject as its issuer and its signature was made with the private
    half of the key the issuer certificate carries. *)
Definition chains_to (c issuer_cert : Forge.Certificate) : Prop :=
  Forge.issuer c = Forge.subject issuer_cert /\
  exists k d,
    Forge.signature c = Some {| Forge.signer := k; Forge.md := d |} /\
    Forge.cert_publicKey issuer_cert
    = Forge.publicKey (Forge.keyPairOf (Forge.sk_bits k) (Forge.sk_material k)).

End Spec.

(** * Properties of the traffic store *)

Section StoreFacts.
Import TrafficStorage.

Lemma distinct_In (l : list string) (x : string) :
  In x (Sqlite.distinct l) <-> In x l.
Proof.
  induction l as [|y l IH]; simpl; [tauto|].
  rewrite filter_In, IH.
  destruct (String.eqb_spec y x) as [E | N]; simpl.
  - split; auto.
  - split; [intros [H | [H _]]; auto | intros [H | H]; auto].
Qed.

Lemma order_by_text_In (l : list string) (x : string) :
  In x (order_by_text l) <-> In x l.
Proof.
  unfold order_by_text.
  split; apply Permutation_in;
    [ | symmetry ]; apply merge_sort_Permutation.
Qed.

Lemma unique_column_In (col : RequestDbRow -> string) (rows : list RequestDbRow) (x : string) :
  In x (order_by_text (Sqlite.distinct (map col rows))) <->
  exists r, In r rows /\ col r = x.
Proof.
  rewrite order_by_text_In, distinct_In, in_map_iff.
  split; intros (r & H1 & H2); exists r; auto.
Qed.

Lemma unique_nonempty_In (rows : list RequestDbRow) (x : string) :
  In x (order_by_text (Sqlite.distinct (map content_type
          (List.filter (fun r => negb (String.eqb (content_type r) "")) rows)))) <->
  x <> ""%string /\ exists r, In r rows /\ content_type r = x.
Proof.
  rewrite order_by_text_In, distinct_In, in_map_iff.
  split.
  - intros (r & <- & H). apply filter_In in H as [H1 H2].
    destruct (String.eqb_spec (content_type r) ""); [discriminate|]. eauto.
  - intros (N & r & H1 & <-). exists r. split; [reflexivity|].
    apply filter_In. split; [assumption|].
    destruct (String.eqb_spec (content_type r) ""); [contradiction|reflexivity].
Qed.

Lemma order_by_text_sorted (l : list string) : Sorted String.le (order_by_text l).
Proof. apply Sorted_merge_sort. apply _. Qed.

Lemma filter_split_length {A} (p : A -> bool) (l : list A) :
  length l = (length (List.filter p l) + length (List.filter (fun x => negb (p x)) l))%nat.
Proof.
  induction l as [|x l IH]; simpl; [reflexivity|].
  destruct (p x); simpl; lia.
Qed.

Lemma update_where_id_twice (i : Z) (d1 d2 : ResponseData) (rows : list RequestDbRow) :
  update_where_id i d2 (update_where_id i d1 rows) = update_where_id i d2 rows.
Proof.
  unfold update_where_id. rewrite map_map. apply map_ext.
  intros r. destruct (id r =? i) eqn:E; simpl; rewrite E; reflexivity.
Qed.

End StoreFacts.

(** C10. The list of distinct content types never holds the empty string:
    it is exactly the set of non-empty content types of the stored rows,
    in ascending order; the lists of distinct hosts and of distinct
    methods hold every value of their column, the empty string included
    when a row has it. *)
Theorem getUniqueContentTypes_excludes_empty (d : TrafficStorage.Database) :
  exists cts hs ms,
    TrafficStorage.getUniqueContentTypes {| TrafficStorage.db := Some d |} = Ok cts /\
    TrafficStorage.getUniqueHosts {| TrafficStorage.db := Some d |} = Ok hs /\
    TrafficStorage.getUniqueMethods {| TrafficStorage.db := Some d |} = Ok ms /\
    ~ In ""%string cts /\
    (forall c, In c cts <->
       c <> ""%string /\
       exists r, In r (TrafficStorage.requests d) /\ TrafficStorage.content_type r = c) /\
    (forall h, In h hs <->
       exists r, In r (TrafficStorage.requests d) /\ TrafficStorage.host r = h) /\
    (forall m, In m ms <->
       exists r, In r (TrafficStorage.requests d) /\ TrafficStorage.method r = m) /\
    Sorted String.le cts.
Proof.
  eexists _, _, _.
  do 3 (split; [reflexivity|]).
  split; [|split; [|split; [|split]]].
  - rewrite unique_nonempty_In. intros [H _]. congruence.
  - intros c. apply unique_nonempty_In.
  - intros h. apply unique_column_In.
  - intros m. apply unique_column_In.
  - apply order_by_text_sorted.
Qed.

(** C8, as stated, fails: the argument of [deleteOlderThan] counts hours,
    not milliseconds. In the retention scenario, with a row two hours old
    and the age 3600000 handed over as it is, nothing is deleted, 0 is
    returned, and the row older than one hour remains. *)
Lemma deleteOlderThan_age_in_ms_counterexample :
  TrafficStorage.deleteOlderThan {| TrafficStorage.db := Some Examples.two_ages |}
    Examples.t_now 3600000
  = Ok (0, {| TrafficStorage.db := Some Examples.two_ages |}) /\
  exists r, In r (TrafficStorage.requests Examples.two_ages) /\
            TrafficStorage.timestamp r < Examples.t_now - 3600000.
Proof.
  split; [vm_compute; reflexivity|].
  eexists. split; [left; reflexivity|]. vm_compute. reflexivity.
Qed.

(** C8, amended. For every number of hours H and every stored set of
    exchanges, [deleteOlderThan(H)] removes exactly the rows whose
    timestamp is strictly less than now - H * 3600000 (none of them
    remains, no other row is removed, the others keep their order), and
    its return value is the number of rows removed. *)
Theorem deleteOlderThan_removes_older_rows (d : TrafficStorage.Database) (now hours : Z) :
  exists n d',
    TrafficStorage.deleteOlderThan {| TrafficStorage.db := Some d |} now hours
    = Ok (n, {| TrafficStorage.db := Some d' |}) /\
    (forall r, In r (TrafficStorage.requests d') <->
               In r (TrafficStorage.requests d) /\
               ~ TrafficStorage.timestamp r < now - hours * 3600000) /\
    sublist (TrafficStorage.requests d') (TrafficStorage.requests d) /\
    Z.of_nat (length (TrafficStorage.requests d))
    = n + Z.of_nat (length (TrafficStorage.requests d')) /\
    TrafficStorage.sqlite_sequence d' = TrafficStorage.sqlite_sequence d.
Proof.
  eexists _, _. split; [reflexivity|]. simpl.
  replace (now - hours * 60 * 60 * 1000) with (now - hours * 3600000) by lia.
  split; [|split; [|split]].
  - intros r. rewrite filter_In.
    destruct (Z.ltb_spec (TrafficStorage.timestamp r) (now - hours * 3600000)); simpl.
    + split; [intros [_ H']; discriminate | intros [_ H']; contradiction].
    + split; intros [H1 _]; split; auto; lia.
  - induction (TrafficStorage.requests d) as [|r l IH]; simpl; [constructor|].
    destruct (negb _); now constructor.
  - rewrite (filter_split_length
               (fun r => TrafficStorage.timestamp r <? now - hours * 3600000)
               (TrafficStorage.requests d)).
    lia.
  - reflexivity.
Qed.

(** C2, as stated, fails: the second exchange below is completed with
    status 200, and a further [updateResponse] on its id replaces the
    stored response. *)
Lemma updateResponse_second_call_counterexample :
  let d := {| TrafficStorage.requests :=
                [ Examples.exchange 1 1000 "GET" "example.test" "/" 200 "text/html" ];
              TrafficStorage.sqlite_sequence := 1 |} in
  Spec.completed d 1 /\
  TrafficStorage.updateResponse {| TrafficStorage.db := Some d |} 1 Examples.not_found
  <> Ok {| TrafficStorage.db := Some d |} /\
  exists d',
    TrafficStorage.updateResponse {| TrafficStorage.db := Some d |} 1 Examples.not_found
    = Ok {| TrafficStorage.db := Some d' |} /\
    map TrafficStorage.status (TrafficStorage.requests d') = [404].
Proof.
  split; [|split].
  - eexists. split; [left; reflexivity|]. split; [reflexivity|]. vm_compute. discriminate.
  - vm_compute. discriminate.
  - eexists. split; reflexivity.
Qed.

(** C2, amended. [updateResponse(id, data)] writes the six response
    columns of the row with that id every time it is called, whether the
    row is completed or not: after two calls the row holds the response of
    the second one (as if the first had not happened), and a second call
    with the same data changes nothing; the request columns of the row,
    and every row with another id, are unchanged. *)
Theorem updateResponse_last_write_wins
    (d : TrafficStorage.Database) (i : Z) (data1 data2 : TrafficStorage.ResponseData) :
  exists d1 d2,
    TrafficStorage.updateResponse {| TrafficStorage.db := Some d |} i data1
    = Ok {| TrafficStorage.db := Some d1 |} /\
    TrafficStorage.updateResponse {| TrafficStorage.db := Some d1 |} i data2
    = Ok {| TrafficStorage.db := Some d2 |} /\
    TrafficStorage.updateResponse {| TrafficStorage.db := Some d |} i data2
    = Ok {| TrafficStorage.db := Some d2 |} /\
    (data1 = data2 -> d2 = d1) /\
    TrafficStorage.requests d1
    = map (fun r => if TrafficStorage.id r =? i
                    then TrafficStorage.set_response data1 r else r)
          (TrafficStorage.requests d) /\
    (forall r, TrafficStorage.mapRowToRequest (TrafficStorage.set_response data1 r)
               = {| TrafficStorage.cr_id := TrafficStorage.id r;
                    TrafficStorage.cr_timestamp := TrafficStorage.timestamp r;
                    TrafficStorage.cr_method := TrafficStorage.method r;
                    TrafficStorage.cr_url := TrafficStorage.url r;
                    TrafficStorage.cr_host := TrafficStorage.host r;
                    TrafficStorage.cr_path := TrafficStorage.path r;
                    TrafficStorage.cr_status := TrafficStorage.rd_status data1;
                    TrafficStorage.requestHeaders := TrafficStorage.request_headers r;
                    TrafficStorage.requestBody := TrafficStorage.request_body r;
                    TrafficStorage.responseHeaders := TrafficStorage.rd_responseHeaders data1;
                    TrafficStorage.responseBody := TrafficStorage.rd_responseBody data1;
                    TrafficStorage.contentType := TrafficStorage.rd_contentType data1;
                    TrafficStorage.cr_duration := TrafficStorage.rd_duration data1;
                    TrafficStorage.cr_size := TrafficStorage.rd_size data1 |}).
Proof.
  eexists _, _. split; [reflexivity|]. split; [reflexivity|].
  unfold TrafficStorage.updateResponse, TrafficStorage.with_requests; simpl.
  rewrite update_where_id_twice.
  split; [reflexivity|]. split; [|split; [reflexivity|reflexivity]].
  intros ->. reflexivity.
Qed.

(** C4: on the three sample exchanges (methods GET, POST, GET) and the
    filter that selects method POST, [getRequests] returns one exchange
    and [getRequestCount] answers 3: only the free-text predicate of the
    filter reaches the COUNT statement. *)
Theorem getRequestCount_ignores_methods :
  TrafficStorage.getRequestCount Examples.store (Some (Examples.only_methods ["POST"%string]))
  = Ok 3 /\
  (exists rs,
     TrafficStorage.getRequests Examples.store (Some (Examples.only_methods ["POST"%string]))
     = Ok rs /\ Z.of_nat (length rs) = 1).
Proof.
  split; [vm_compute; reflexivity|].
  eexists. split; [vm_compute; reflexivity|]. reflexivity.
Qed.

(** ** The LIKE operator on a pattern without wildcards of its own *)

Section LikeFacts.
Import Sqlite.

Lemma like_percent (p s : list ascii) :
  like ("%"%char :: p) s
  = (like p s || match s with [] => false | _ :: s' => like ("%"%char :: p) s' end)%bool.
Proof. destruct s; reflexivity. Qed.

Lemma like_percent_spec (p s : list ascii) :
  like ("%"%char :: p) s = true <->
  exists pre rest, s = pre ++ rest /\ like p rest = true.
Proof.
  induction s as [|c s IH]; rewrite like_percent, orb_true_iff.
  - split.
    + intros [H | H]; [|discriminate]. exists [], []. auto.
    + intros (pre & rest & E & H). left.
      symmetry in E. apply app_eq_nil in E as [_ ->]. exact H.
  - rewrite IH. split.
    + intros [H | (pre & rest & -> & H)].
      * exists [], (c :: s). auto.
      * exists (c :: pre), rest. auto.
    + intros (pre & rest & E & H). destruct pre as [|c' pre]; simpl in E.
      * left. subst rest. exact H.
      * right. injection E as -> ->. eauto.
Qed.

Lemma like_char (c : ascii) (p s : list ascii) :
  is_wildcard c = false ->
  like (c :: p) s
  = match s with
    | [] => false
    | d :: s' => (Ascii.eqb (to_lower c) (to_lower d) && like p s')%bool
    end.
Proof.
  unfold is_wildcard. intros H. apply orb_false_iff in H as [H1 H2].
  simpl. rewrite H1, H2. reflexivity.
Qed.

Lemma like_literal_prefix (q s : list ascii) :
  Forall (fun c => is_wildcard c = false) q ->
  like (q ++ ["%"%char]) s = true <->
  exists mid post, s = mid ++ post /\ Spec.fold_case mid = Spec.fold_case q.
Proof.
  intros Hq. revert s. induction Hq as [|c q Hc Hq IH]; intros s.
  - simpl app. rewrite like_percent_spec. split.
    + intros _. exists [], s. auto.
    + intros _. exists s, []. rewrite app_nil_r. auto.
  - simpl app. rewrite (like_char c _ s Hc). destruct s as [|d s].
    + split; [discriminate|].
      intros (mid & post & E & F). symmetry in E.
      apply app_eq_nil in E as [-> _]. discriminate.
    + rewrite andb_true_iff, IH. split.
      * intros [E (mid & post & -> & F)].
        exists (d :: mid), post. split; [reflexivity|].
        simpl. rewrite F. f_equal.
        destruct (Ascii.eqb_spec (to_lower c) (to_lower d)); congruence.
      * intros (mid & post & E & F). destruct mid as [|d' mid]; [discriminate|].
        simpl in E, F. injection E as -> ->. injection F as F1 F2.
        split; [|eauto].
        rewrite F1. apply Ascii.eqb_refl.
Qed.

Lemma list_ascii_of_append (a b : string) :
  String.list_ascii_of_string (a +:+ b)
  = String.list_ascii_of_string a ++ String.list_ascii_of_string b.
Proof. induction a as [|c a IH]; simpl; [reflexivity|]. now rewrite IH. Qed.

Lemma LIKE_contains (q s : string) :
  Spec.wildcard_free q ->
  LIKE s ("%" +:+ q +:+ "%") = true <-> Spec.contains_ci q s.
Proof.
  intros Hq. unfold LIKE, Spec.contains_ci.
  rewrite !list_ascii_of_append. simpl app.
  change (String.list_ascii_of_string "%") with ["%"%char].
  rewrite like_percent_spec. split.
  - intros (pre & rest & E & H).
    apply like_literal_prefix in H as (mid & post & -> & F); [|exact Hq]. eauto.
  - intros (pre & mid & post & E & F). exists pre, (mid ++ post). split; [exact E|].
    apply like_literal_prefix; [exact Hq|]. eauto.
Qed.

End LikeFacts.

(** ** The SELECT of [getRequests] *)

Section QueryFacts.
Import TrafficStorage.

Lemma IN_text_In (x : string) (vs : list string) : Sqlite.IN_text x vs = true <-> In x vs.
Proof.
  unfold Sqlite.IN_text. rewrite existsb_exists. split.
  - intros (y & H & E). apply String.eqb_eq in E. now subst.
  - intros H. exists x. split; [exact H | apply String.eqb_refl].
Qed.

Lemma IN_int_In (x : Z) (vs : list Z) : Sqlite.IN_int x vs = true <-> In x vs.
Proof.
  unfold Sqlite.IN_int. rewrite existsb_exists. split.
  - intros (y & H & E). apply Z.eqb_eq in E. now subst.
  - intros H. exists x. split; [exact H | apply Z.eqb_refl].
Qed.

Lemma list_clause {A} (o : option (list A)) (p : list A -> bool) (Q : list A -> Prop) :
  (forall l, p l = true <-> Q l) ->
  match non_empty o with Some l => p l | None => true end = true <->
  (forall l, o = Some l -> l <> [] -> Q l).
Proof.
  intros H. destruct o as [[|x l]|]; simpl.
  - split; [|reflexivity]. intros _ l [= <-] N. now contradiction N.
  - rewrite H. split.
    + intros HQ l' [= <-] _. exact HQ.
    + intros HQ. now apply HQ.
  - split; [|reflexivity]. intros _ l [=].
Qed.

Lemma search_clause_spec (o : option string) (r : RequestDbRow) :
  match truthy_string o with Some q => search_clause q r | None => true end = true <->
  (forall q, o = Some q -> q <> ""%string ->
     let pat := "%" +:+ q +:+ "%" in
     Sqlite.LIKE (url r) pat = true \/ Sqlite.LIKE (host r) pat = true \/
     Sqlite.LIKE (path r) pat = true).
Proof.
  destruct o as [q|]; simpl.
  - destruct (String.eqb_spec q "") as [-> | N].
    + split; [|reflexivity]. intros _ q [= <-] N. now contradiction N.
    + unfold search_clause. rewrite !orb_true_iff. split.
      * intros H q' [= <-] _. tauto.
      * intros H. specialize (H q eq_refl N). simpl in H. tauto.
  - split; [|reflexivity]. intros _ q [=].
Qed.

Lemma where_clause_satisfies (f : FilterOptions) (r : RequestDbRow) :
  where_clause f r = true <-> Spec.satisfies f r.
Proof.
  unfold where_clause, Spec.satisfies.
  rewrite !andb_true_iff, search_clause_spec.
  rewrite (list_clause (methods f) _ (fun ms => In (method r) ms))
    by (intros; apply IN_text_In).
  rewrite (list_clause (statusCodes f) _ (fun cs => In (status r) cs))
    by (intros; apply IN_int_In).
  rewrite (list_clause (hosts f) _ (fun hs => In (host r) hs))
    by (intros; apply IN_text_In).
  rewrite (list_clause (contentTypes f) _
             (fun cts => exists ct, In ct cts /\
                Sqlite.LIKE (content_type r) ("%" +:+ ct +:+ "%") = true))
    by (intros; unfold content_type_clause; apply existsb_exists).
  assert (match dateRange f with
          | Some dr => (start dr <=? timestamp r) && (timestamp r <=? end_ dr)
          | None => true
          end = true <->
          (forall dr, dateRange f = Some dr -> start dr <= timestamp r <= end_ dr)) as ->.
  { destruct (dateRange f) as [dr|].
    - rewrite andb_true_iff, !Z.leb_le. split.
      + intros H dr' [= <-]. exact H.
      + intros H. now apply H.
    - split; [|reflexivity]. intros _ dr [=]. }
  tauto.
Qed.

#[local] Instance timestamp_desc_trans : Transitive timestamp_desc.
Proof. unfold timestamp_desc. intros x y z. lia. Qed.

#[local] Instance timestamp_desc_total : Total timestamp_desc.
Proof. unfold timestamp_desc. intros x y. lia. Qed.

Lemma order_by_timestamp_desc_sorted (rows : list RequestDbRow) :
  StronglySorted timestamp_desc (order_by_timestamp_desc rows).
Proof. apply StronglySorted_merge_sort; apply _. Qed.

Lemma order_by_timestamp_desc_perm (rows : list RequestDbRow) :
  Permutation (order_by_timestamp_desc rows) rows.
Proof. apply merge_sort_Permutation. Qed.

Lemma limit_offset_sublist {A} (n k : Z) (rows : list A) :
  sublist (Sqlite.limit_offset n k rows) rows.
Proof.
  unfold Sqlite.limit_offset. destruct (n <? 0).
  - apply sublist_drop.
  - etransitivity; [apply sublist_take | apply sublist_drop].
Qed.

Lemma paginate_sublist (f : option FilterOptions) (rows : list RequestDbRow) :
  sublist (paginate f rows) rows.
Proof.
  unfold paginate. destruct f as [f|]; [|reflexivity].
  destruct (truthy_number (limit f)); [|reflexivity].
  destruct (truthy_number (offset f)); apply limit_offset_sublist.
Qed.

Lemma sublist_In {A} (l1 l2 : list A) (x : A) : sublist l1 l2 -> In x l1 -> In x l2.
Proof.
  intros Hs H. apply list_elem_of_In. eapply elem_of_sublist; [|exact Hs].
  now apply list_elem_of_In.
Qed.

Lemma sublist_strongly_sorted {A} (R : A -> A -> Prop) (l1 l2 : list A) :
  sublist l1 l2 -> StronglySorted R l2 -> StronglySorted R l1.
Proof.
  induction 1 as [|x l1 l2 Hs IH|x l1 l2 Hs IH]; intros H.
  - constructor.
  - apply StronglySorted_inv in H as [H1 H2]. constructor; [auto|].
    rewrite Forall_forall in *. intros y Hy. apply H2.
    eapply elem_of_sublist; eassumption.
  - apply StronglySorted_inv in H as [H1 _]. auto.
Qed.

Lemma select_requests_In (d : Database) (f : FilterOptions) (r : RequestDbRow) :
  In r (select_requests d (Some f)) -> In r (requests d) /\ where_clause f r = true.
Proof.
  unfold select_requests. intros H.
  apply (sublist_In _ _ _ (paginate_sublist _ _)) in H.
  apply (Permutation_in _ (order_by_timestamp_desc_perm _)) in H.
  now apply filter_In in H.
Qed.

Lemma select_requests_sorted (d : Database) (f : option FilterOptions) :
  StronglySorted timestamp_desc (select_requests d f).
Proof.
  unfold select_requests.
  eapply sublist_strongly_sorted; [apply paginate_sublist|].
  apply order_by_timestamp_desc_sorted.
Qed.

Lemma select_requests_without_window (d : Database) (f : FilterOptions) :
  Permutation (select_requests d (Some (Spec.without_window f)))
              (List.filter (where_clause f) (requests d)).
Proof.
  unfold select_requests, paginate. simpl.
  rewrite order_by_timestamp_desc_perm. reflexivity.
Qed.

Lemma select_requests_window (d : Database) (f : FilterOptions) :
  select_requests d (Some f)
  = paginate (Some f) (select_requests d (Some (Spec.without_window f))).
Proof. reflexivity. Qed.

End QueryFacts.

(** C3, as stated, fails: an offset given without a limit is not applied.
    On the three sample exchanges, the filter [{offset: 1}] returns all
    three rows, not the two that follow the first. *)
Lemma getRequests_offset_without_limit_counterexample :
  let f := Examples.only_offset 1 in
  exists rows all,
    TrafficStorage.getRequests Examples.store (Some f)
    = Ok (map TrafficStorage.mapRowToRequest rows) /\
    TrafficStorage.getRequests Examples.store (Some (Spec.without_window f))
    = Ok (map TrafficStorage.mapRowToRequest all) /\
    map TrafficStorage.id rows = [2; 3; 1] /\
    map TrafficStorage.id
      (Spec.window (TrafficStorage.limit f) (TrafficStorage.offset f) all) = [3; 1] /\
    rows <> Spec.window (TrafficStorage.limit f) (TrafficStorage.offset f) all.
Proof.
  intros f.
  exists (TrafficStorage.select_requests Examples.three_rows (Some f)),
         (TrafficStorage.select_requests Examples.three_rows (Some (Spec.without_window f))).
  split; [reflexivity|]. split; [reflexivity|].
  split; [vm_compute; reflexivity|]. split; [vm_compute; reflexivity|].
  vm_compute. discriminate.
Qed.

(** C3, amended. For every stored set of exchanges and every filter,
    [getRequests] returns exchanges that satisfy all predicates of the
    filter at once, ordered by timestamp descending. With no limit (or
    limit 0) it returns every such exchange, whatever the offset; with a
    positive limit it returns the window that the offset (0 when absent)
    and the limit cut out of that ordered list. The free-text predicate
    is LIKE on url, host and path; for a search text without [%] and [_]
    that is a substring match up to ASCII case. *)
Theorem getRequests_conjunctive_sorted_window
    (d : TrafficStorage.Database) (f : TrafficStorage.FilterOptions) :
  exists rows all,
    TrafficStorage.getRequests {| TrafficStorage.db := Some d |} (Some f)
    = Ok (map TrafficStorage.mapRowToRequest rows) /\
    TrafficStorage.getRequests {| TrafficStorage.db := Some d |} (Some (Spec.without_window f))
    = Ok (map TrafficStorage.mapRowToRequest all) /\
    (forall r, In r rows -> In r (TrafficStorage.requests d) /\ Spec.satisfies f r) /\
    StronglySorted TrafficStorage.timestamp_desc rows /\
    Permutation all
      (List.filter (TrafficStorage.where_clause f) (TrafficStorage.requests d)) /\
    (forall r, TrafficStorage.where_clause f r = true <-> Spec.satisfies f r) /\
    (TrafficStorage.limit f = None \/ TrafficStorage.limit f = Some 0 -> rows = all) /\
    (forall n, TrafficStorage.limit f = Some n -> 0 < n ->
       rows = Spec.window (Some n) (TrafficStorage.offset f) all) /\
    (forall q s, Spec.wildcard_free q ->
       Sqlite.LIKE s ("%" +:+ q +:+ "%") = true <-> Spec.contains_ci q s).
Proof.
  exists (TrafficStorage.select_requests d (Some f)),
         (TrafficStorage.select_requests d (Some (Spec.without_window f))).
  split; [reflexivity|]. split; [reflexivity|].
  split; [|split; [|split; [|split; [|split; [|split]]]]].
  - intros r H. apply select_requests_In in H as [H1 H2].
    split; [exact H1 | now apply where_clause_satisfies].
  - apply select_requests_sorted.
  - apply select_requests_without_window.
  - apply where_clause_satisfies.
  - rewrite select_requests_window. unfold TrafficStorage.paginate.
    intros [-> | ->]; reflexivity.
  - intros n Hn Hpos. rewrite select_requests_window.
    unfold TrafficStorage.paginate, TrafficStorage.truthy_number, Spec.window.
    rewrite Hn. destruct (Z.eqb_spec n 0) as [-> | _]; [lia|].
    unfold Sqlite.limit_offset.
    destruct (Z.ltb_spec n 0); [lia|].
    destruct (TrafficStorage.offset f) as [k|]; [|reflexivity].
    destruct (Z.eqb_spec k 0) as [-> | _]; reflexivity.
  - intros q s. apply LIKE_contains.
Qed.

(** C7, as stated, fails: the status predicate is compared for equality.
    With the bucket 2xx named by 200, the sample exchange whose status
    is 204 lies in the range 200 to 299 and is not returned. *)
Lemma getRequests_status_bucket_counterexample :
  let f := Examples.only_status [200] in
  Forall Spec.is_bucket [200] /\
  (exists r, In r (TrafficStorage.requests Examples.three_rows) /\
             TrafficStorage.status r = 204 /\ Spec.in_bucket 200 (TrafficStorage.status r)) /\
  exists rows,
    TrafficStorage.getRequests Examples.store (Some f)
    = Ok (map TrafficStorage.mapRowToRequest rows) /\
    map TrafficStorage.status rows = [200].
Proof.
  split; [|split].
  - constructor; [|constructor]. left. reflexivity.
  - eexists. split; [right; right; left; reflexivity|].
    split; [reflexivity|]. unfold Spec.in_bucket. simpl. lia.
  - exists (TrafficStorage.select_requests Examples.three_rows
              (Some (Examples.only_status [200]))).
    split; [reflexivity | vm_compute; reflexivity].
Qed.

(** C7, amended. For every filter whose status predicate is a non-empty
    list of status codes, [getRequests] returns only exchanges whose
    status is literally equal to a listed value; when nothing else is
    asked, it returns exactly the stored exchanges whose status is
    listed. No range is derived from a listed value. *)
Theorem getRequests_status_literal
    (d : TrafficStorage.Database) (f : TrafficStorage.FilterOptions) (cs : list Z)
    (Hcs : TrafficStorage.statusCodes f = Some cs) (Hne : cs <> []) :
  (exists rows,
     TrafficStorage.getRequests {| TrafficStorage.db := Some d |} (Some f)
     = Ok (map TrafficStorage.mapRowToRequest rows) /\
     forall r, In r rows -> In (TrafficStorage.status r) cs) /\
  (exists rows,
     TrafficStorage.getRequests {| TrafficStorage.db := Some d |}
       (Some (Examples.only_status cs))
     = Ok (map TrafficStorage.mapRowToRequest rows) /\
     forall r, In r rows <->
               In r (TrafficStorage.requests d) /\ In (TrafficStorage.status r) cs).
Proof.
  split.
  - eexists. split; [reflexivity|]. intros r H.
    apply select_requests_In in H as [_ H].
    apply where_clause_satisfies in H.
    destruct H as (_ & _ & H & _). now apply (H cs).
  - eexists. split; [reflexivity|]. intros r.
    change (Examples.only_status cs) with (Spec.without_window (Examples.only_status cs)).
    assert (In r (TrafficStorage.select_requests d
                    (Some (Spec.without_window (Examples.only_status cs)))) <->
            In r (List.filter (TrafficStorage.where_clause (Examples.only_status cs))
                    (TrafficStorage.requests d))) as ->.
    { split; apply Permutation_in;
        [|symmetry]; apply select_requests_without_window. }
    rewrite filter_In.
    assert (TrafficStorage.where_clause (Examples.only_status cs) r = true <->
            In (TrafficStorage.status r) cs) as ->; [|reflexivity].
    unfold TrafficStorage.where_clause; simpl.
    destruct cs as [|c cs]; [contradiction|]. simpl TrafficStorage.non_empty.
    rewrite !andb_true_r. apply IN_int_In.
Qed.

Lemma getRequests_status_literal_witness :
  TrafficStorage.statusCodes (Examples.only_status [200; 204]) = Some [200; 204] /\
  (exists rows,
     TrafficStorage.getRequests Examples.store (Some (Examples.only_status [200; 204]))
     = Ok (map TrafficStorage.mapRowToRequest rows) /\
     forall r, In r rows -> In (TrafficStorage.status r) [200; 204]).
Proof.
  split; [reflexivity|].
  apply (getRequests_status_literal Examples.three_rows
           (Examples.only_status [200; 204]) [200; 204]);
    [reflexivity | discriminate].
Defined.

(** * Properties of the certificate manager *)

Section IpFacts.
Import CertificateManager.



Lemma split_dots_group (g : list ascii) :
  Forall (fun c => Ascii.eqb c "." = false) g -> split_dots g = [g].
Proof.
  induction 1 as [|c g Hc Hg IH]; simpl; [reflexivity|].
  now rewrite Hc, IH.
Qed.

Lemma split_dots_app (g rest : list ascii) :
  Forall (fun c => Ascii.eqb c "." = false) g ->
  split_dots (g ++ "."%char :: rest) = g :: split_dots rest.
Proof.
  induction 1 as [|c g Hc Hg IH]; simpl; [reflexivity|].
  now rewrite Hc, IH.
Qed.







End IpFacts.

(** Runs the body of a method on the state at hand. *)
Ltac run_method :=
  cbv [CertificateManager.initialize CertificateManager.caExists CertificateManager.loadCA
       CertificateManager.generateCA CertificateManager.generateServerCert
       CertificateManager.getCertPem CertificateManager.getKeyPem
       CertificateManager.getCertDer CertificateManager.bind CertificateManager.this
       CertificateManager.world CertificateManager.lift CertificateManager.ret
       CertificateManager.throw CertificateManager.existsSync CertificateManager.mkdirSync
       CertificateManager.readFileSync CertificateManager.writeFileSync
       CertificateManager.set_caKey CertificateManager.set_caCert
       CertificateManager.generateKeyPair CertificateManager.generateSerialNumber
       CertificateManager.random_draw World.draw World.tick
       CertificateManager.new_Date CertificateManager.Date_now fst snd].

Section ManagerFacts.
Import Forge CertificateManager.

Lemma append_same_prefix (s t : string) : s +:+ t = s -> t = ""%string.
Proof.
  induction s as [|c s IH]; simpl; intros H; [exact H|].
  injection H as H'. auto.
Qed.

Lemma initialize_unfold (o : t) (w : World.t) :
  initialize (o, w)
  = if both_exist o (with_certsDir o w)
    then loadCA (o, with_certsDir o w)
    else generateCA (o, with_certsDir o w).
Proof.
  unfold initialize, with_certsDir, both_exist, bind at 1 2 3, this at 1, existsSync at 1.
  simpl.
  destruct (World.existsSync (certsDir o) (World.fs w)); simpl;
    unfold bind at 1, caExists, bind at 1 2, this at 1, existsSync at 1; simpl.
  - destruct (World.existsSync (caKeyPath o) (World.fs w)); simpl; [|reflexivity].
    unfold existsSync. simpl.
    destruct (World.existsSync (caCertPath o) (World.fs w)); reflexivity.
  - destruct (World.existsSync (caKeyPath o) _); simpl; [|reflexivity].
    unfold existsSync. simpl.
    destruct (World.existsSync (caCertPath o) _); reflexivity.
Qed.

Lemma loadCA_well_formed (o : t) (w : World.t) :
  well_formed o -> well_formed (fst (snd (loadCA (o, w)))).
Proof.
  intros [(p & H1 & H2 & H3) H]. split.
  - exists p. run_method. repeat case_match; simplify_eq/=; auto.
  - run_method. repeat case_match; simplify_eq/=; eauto.
Qed.

Lemma generateCA_well_formed (o : t) (w : World.t) :
  well_formed o -> well_formed (fst (snd (generateCA (o, w)))).
Proof.
  intros [(p & H1 & H2 & H3) H]. split.
  - exists p. run_method. simpl. auto.
  - run_method. simpl. eauto.
Qed.

Lemma initialize_well_formed (o : t) (w : World.t) :
  well_formed o -> well_formed (fst (snd (initialize (o, w)))).
Proof.
  intros H. rewrite initialize_unfold.
  destruct (both_exist o (with_certsDir o w));
    [now apply loadCA_well_formed | now apply generateCA_well_formed].
Qed.

Lemma reachable_well_formed (o : t) : reachable o -> well_formed o.
Proof.
  induction 1 as [p | o w Hr IH].
  - split; [exists p; auto|]. simpl. intros [x Hx]. discriminate.
  - now apply initialize_well_formed.
Qed.

Lemma append_cancel_prefix (s t1 t2 : string) : s +:+ t1 = s +:+ t2 -> t1 = t2.
Proof.
  induction s as [|c s IH]; simpl; intros H; [exact H|].
  injection H as H'. auto.
Qed.

Lemma well_formed_paths (o : t) :
  well_formed o -> caKeyPath o <> certsDir o /\ caCertPath o <> certsDir o.
Proof.
  intros [(p & -> & -> & ->) _]. simpl. unfold path_join.
  split; intros H; apply append_same_prefix in H; discriminate.
Qed.

Lemma well_formed_two_files (o : t) : well_formed o -> caKeyPath o <> caCertPath o.
Proof.
  intros [(p & _ & -> & ->) _]. simpl. unfold path_join.
  intros H. apply append_cancel_prefix in H. discriminate.
Qed.

Lemma existsSync_mkdir (p d : string) (fs : World.FileSystem) :
  p <> d ->
  World.existsSync p (World.apply_op fs (World.MkdirSync d)) = World.existsSync p fs.
Proof.
  intros N. unfold World.existsSync. simpl. f_equal.
  apply bool_decide_ext. rewrite elem_of_union, elem_of_singleton.
  split; [intros [E | H]; [contradiction | exact H] | auto].
Qed.

Lemma both_exist_with_certsDir (o : t) (w : World.t) :
  well_formed o -> both_exist o (with_certsDir o w) = both_exist o w.
Proof.
  intros H. apply well_formed_paths in H as [H1 H2].
  unfold with_certsDir, both_exist.
  destruct (World.existsSync (certsDir o) (World.fs w)); [reflexivity|].
  unfold World.perform. cbn [World.fs]. now rewrite !existsSync_mkdir.
Qed.


Lemma loadCA_world (o : t) (w : World.t) : snd (snd (loadCA (o, w))) = w.
Proof. run_method. repeat case_match; simplify_eq/=; reflexivity. Qed.

Lemma loadCA_ok (o : t) (w : World.t) (k : PrivateKey) (c : Certificate) :
  World.files (World.fs w) !! caKeyPath o = Some (PrivateKeyPem k) ->
  World.files (World.fs w) !! caCertPath o = Some (CertificatePem c) ->
  fst (loadCA (o, w)) = Ok tt /\
  caKey (fst (snd (loadCA (o, w)))) = Some k /\
  caCert (fst (snd (loadCA (o, w)))) = Some c.
Proof. intros Hk Hc. run_method. rewrite Hk, Hc. simpl. auto. Qed.

End ManagerFacts.

Lemma first_run_initialize :
  CertificateManager.initialize (Examples.manager, Examples.first_run)
  = (Ok tt, Examples.initialized).
Proof. vm_compute. reflexivity. Qed.

(** C5, as stated, fails: the two files are written one after the other,
    each in place. On a first run the file system passes through a state
    that holds rootCA.key and not rootCA.crt, and no rename takes place. *)
Lemma initialize_not_atomic_counterexample :
  let o := Examples.manager in
  let w := Examples.first_run in
  let w' := snd (snd (CertificateManager.initialize (o, w))) in
  ~ Spec.never_one_of_two (CertificateManager.caKeyPath o) (CertificateManager.caCertPath o)
      (World.states (World.fs w) (World.trace w')) /\
  (exists fs, In fs (World.states (World.fs w) (World.trace w')) /\
              World.existsSync (CertificateManager.caKeyPath o) fs = true /\
              World.existsSync (CertificateManager.caCertPath o) fs = false) /\
  (forall a b, ~ In (World.RenameSync a b) (World.trace w')).
Proof.
  intros o w w'. subst o w w'. rewrite first_run_initialize.
  set (fs1 := nth 2 (World.states (World.fs Examples.first_run)
                       (World.trace (snd (snd (Ok tt, Examples.initialized)))))
                (World.fs Examples.first_run)).
  assert (In fs1 (World.states (World.fs Examples.first_run)
                    (World.trace (snd (snd (Ok tt, Examples.initialized)))))) as Hin
    by (vm_compute; right; right; left; reflexivity).
  assert (World.existsSync (CertificateManager.caKeyPath Examples.manager) fs1 = true) as Hk
    by (vm_compute; reflexivity).
  assert (World.existsSync (CertificateManager.caCertPath Examples.manager) fs1 = false) as Hc
    by (vm_compute; reflexivity).
  clearbody fs1.
  split; [|split].
  - intros Hall. unfold Spec.never_one_of_two in Hall.
    rewrite List.Forall_forall in Hall. specialize (Hall fs1 Hin).
    rewrite Hk, Hc in Hall. discriminate Hall.
  - exists fs1. auto.
  - intros a b Hr. vm_compute in Hr.
    repeat (destruct Hr as [Hr | Hr]; [discriminate Hr|]). exact Hr.
Qed.

(** C5, amended. CA initialization generates a fresh RootCA if and only
    if at least one of the two files rootCA.key, rootCA.crt is missing.
    When both are there nothing is generated and no file is written; the
    key and the certificate they hold become the CA. When it generates,
    it draws a new key, and writes rootCA.key and then rootCA.crt, each
    with one direct write of the PEM text, after which both files hold
    the new CA. *)
Theorem initialize_generates_iff_missing
    (o : CertificateManager.t) (w : World.t) (Hr : CertificateManager.reachable o) :
  let r := fst (CertificateManager.initialize (o, w)) in
  let o' := fst (snd (CertificateManager.initialize (o, w))) in
  let w' := snd (snd (CertificateManager.initialize (o, w))) in
  let mkdir :=
    if World.existsSync (CertificateManager.certsDir o) (World.fs w) then []
    else [World.MkdirSync (CertificateManager.certsDir o)] in
  let keyPath := CertificateManager.caKeyPath o in
  let certPath := CertificateManager.caCertPath o in
  (CertificateManager.both_exist o w = true ->
     World.trace w' = World.trace w ++ mkdir /\
     World.files (World.fs w') = World.files (World.fs w) /\
     World.drawn w' = World.drawn w /\
     forall k c,
       World.files (World.fs w) !! keyPath = Some (Forge.PrivateKeyPem k) ->
       World.files (World.fs w) !! certPath = Some (Forge.CertificatePem c) ->
       r = Ok tt /\
       CertificateManager.caKey o' = Some k /\ CertificateManager.caCert o' = Some c) /\
  (CertificateManager.both_exist o w = false ->
     r = Ok tt /\
     exists k c,
       CertificateManager.caKey o' = Some k /\ CertificateManager.caCert o' = Some c /\
       Forge.sk_material k = World.random w (World.drawn w) /\
       World.drawn w' = S (S (World.drawn w)) /\
       World.trace w'
       = World.trace w ++ mkdir ++
         [ World.WriteFileSync keyPath (Forge.PrivateKeyPem k);
           World.WriteFileSync certPath (Forge.CertificatePem c) ] /\
       World.files (World.fs w') !! keyPath = Some (Forge.PrivateKeyPem k) /\
       World.files (World.fs w') !! certPath = Some (Forge.CertificatePem c)).
Proof.
  intros r o' w' mkdir keyPath certPath.
  apply reachable_well_formed in Hr.
  pose proof (both_exist_with_certsDir o w Hr) as Hb.
  subst r o' w'. rewrite initialize_unfold, Hb.
  assert (World.trace (CertificateManager.with_certsDir o w) = World.trace w ++ mkdir /\
          World.files (World.fs (CertificateManager.with_certsDir o w))
          = World.files (World.fs w) /\
          World.drawn (CertificateManager.with_certsDir o w) = World.drawn w /\
          World.random (CertificateManager.with_certsDir o w) = World.random w)
    as (Ht & Hf & Hd & Hrnd).
  { unfold CertificateManager.with_certsDir. subst mkdir.
    destruct (World.existsSync _ _); simpl; [rewrite app_nil_r|]; auto. }
  split; intros Hboth; rewrite Hboth.
  - rewrite loadCA_world. split; [exact Ht|]. split; [exact Hf|]. split; [exact Hd|].
    intros k c Hk Hc. apply loadCA_ok; now rewrite Hf.
  - run_method. simpl. split; [reflexivity|].
    eexists _, _. split; [reflexivity|]. split; [reflexivity|].
    split; [now rewrite Hrnd, Hd|]. split; [now rewrite Hd|].
    split; [now rewrite Ht, <- !app_assoc|].
    subst keyPath certPath. apply well_formed_two_files in Hr. split.
    + rewrite lookup_insert_ne by congruence. now rewrite lookup_insert_eq.
    + now rewrite lookup_insert_eq.
Qed.

Lemma initialize_generates_iff_missing_witness :
  CertificateManager.reachable Examples.manager /\
  CertificateManager.both_exist Examples.manager Examples.first_run = false /\
  fst (CertificateManager.initialize (Examples.manager, Examples.first_run)) = Ok tt.
Proof.
  split; [constructor|]. split; [vm_compute; reflexivity|].
  apply (initialize_generates_iff_missing Examples.manager Examples.first_run
           (CertificateManager.reachable_new "/data")).
  vm_compute. reflexivity.
Defined.






(** C9. In every state the object can reach, leaf minting and the export
    of the CA certificate as PEM and as DER throw if and only if the CA
    is not loaded, and then with the message "CA not initialized"; a
    mint that throws leaves the object and the world as they were. *)
Theorem ca_not_loaded_iff_error
    (o : CertificateManager.t) (w : World.t) (domain : string)
    (Hr : CertificateManager.reachable o) :
  (is_ok (fst (CertificateManager.generateServerCert domain (o, w))) = false <->
   ~ CertificateManager.loaded o) /\
  (is_ok (fst (CertificateManager.getCertPem (o, w))) = false <->
   ~ CertificateManager.loaded o) /\
  (is_ok (fst (CertificateManager.getCertDer (o, w))) = false <->
   ~ CertificateManager.loaded o) /\
  (~ CertificateManager.loaded o ->
   CertificateManager.generateServerCert domain (o, w)
   = (Throw "CA not initialized", (o, w)) /\
   CertificateManager.getCertPem (o, w) = (Throw "CA not initialized", (o, w)) /\
   CertificateManager.getCertDer (o, w) = (Throw "CA not initialized", (o, w))).
Proof.
  apply reachable_well_formed in Hr. destruct Hr as [_ Hinv].
  unfold CertificateManager.loaded. run_method.
  destruct (CertificateManager.caKey o) as [k|], (CertificateManager.caCert o) as [c|];
    simpl.
  - assert (is_Some (Some k) /\ is_Some (Some c)) as Hl by (split; eauto).
    split; [|split; [|split]];
      [ split; [discriminate | intros H; contradiction (H Hl)] ..
      | intros H; contradiction (H Hl) ].
  - assert (~ (is_Some (Some k) /\ is_Some (@None Forge.Certificate))) as Hn
      by (intros [_ [x Hx]]; discriminate Hx).
    split; [|split; [|split]];
      [ split; [intros _; exact Hn | reflexivity] ..
      | intros _; repeat split; reflexivity ].
  - destruct Hinv as [x Hx]; [eauto | discriminate Hx].
  - assert (~ (is_Some (@None Forge.PrivateKey) /\ is_Some (@None Forge.Certificate))) as Hn
      by (intros [_ [x Hx]]; discriminate Hx).
    split; [|split; [|split]];
      [ split; [intros _; exact Hn | reflexivity] ..
      | intros _; repeat split; reflexivity ].
Qed.

Lemma ca_not_loaded_iff_error_witness :
  CertificateManager.reachable Examples.manager /\
  ~ CertificateManager.loaded Examples.manager /\
  CertificateManager.generateServerCert "a.test" (Examples.manager, Examples.first_run)
  = (Throw "CA not initialized", (Examples.manager, Examples.first_run)).
Proof.
  assert (~ CertificateManager.loaded Examples.manager) as Hn
    by (intros [[x Hx] _]; discriminate Hx).
  split; [constructor|]. split; [exact Hn|].
  apply (ca_not_loaded_iff_error Examples.manager Examples.first_run "a.test"
           (CertificateManager.reachable_new "/data")).
  exact Hn.
Defined.

(** C1, as stated, fails: with the CA loaded and nothing evicted in
    between, two mints for the hostname a.test both succeed, the object
    is the same before the second one, and the two results differ. *)
Lemma generateServerCert_single_flight_counterexample :
  let run1 := CertificateManager.generateServerCert "a.test" Examples.initialized in
  let run2 := CertificateManager.generateServerCert "a.test" (snd run1) in
  is_ok (fst run1) = true /\ is_ok (fst run2) = true /\
  fst (snd run1) = fst Examples.initialized /\
  fst run1 <> fst run2.
Proof.
  split; [vm_compute; reflexivity|]. split; [vm_compute; reflexivity|].
  split; [vm_compute; reflexivity|].
  vm_compute. intros H. discriminate H.
Qed.

(** C1, amended. Leaf minting keeps no cache and coalesces nothing: with
    the CA loaded, every call of [generateServerCert] runs its own key
    generation and signing on fresh random draws, reads the clock afresh
    ([Date.now()] for its serial number, [new Date()] for its validity)
    and leaves the object as it was. Two successive mints for the same
    hostname yield the same key exactly when the generator hands out the
    same key material twice, so the two (key, cert) pairs differ whenever
    it does not; they are the same pair when the generator repeats both
    of its draws and the clock shows the second call the two readings it
    showed the first. *)
Theorem generateServerCert_mints_each_call
    (o : CertificateManager.t) (w : World.t) (domain : string)
    (ca_key : Forge.PrivateKey) (ca_cert : Forge.Certificate)
    (Hkey : CertificateManager.caKey o = Some ca_key)
    (Hcert : CertificateManager.caCert o = Some ca_cert) :
  let run1 := CertificateManager.generateServerCert domain (o, w) in
  let run2 := CertificateManager.generateServerCert domain (snd run1) in
  let n := World.drawn w in
  exists k1 c1 k2 c2,
    fst run1 = Ok {| CertificateManager.key := Forge.PrivateKeyPem k1;
                     CertificateManager.cert := Forge.CertificatePem c1 |} /\
    fst run2 = Ok {| CertificateManager.key := Forge.PrivateKeyPem k2;
                     CertificateManager.cert := Forge.CertificatePem c2 |} /\
    fst (snd run1) = o /\ fst (snd run2) = o /\
    World.drawn (snd (snd run1)) = S (S n) /\
    World.drawn (snd (snd run2)) = S (S (S (S n))) /\
    World.reads (snd (snd run1)) = S (S (World.reads w)) /\
    World.reads (snd (snd run2)) = S (S (S (S (World.reads w)))) /\
    Forge.sk_material k1 = World.random w n /\
    Forge.sk_material k2 = World.random w (S (S n)) /\
    Forge.serialNumber c1
    = {| Forge.sn_time := World.epoch_ms (World.reading w 0);
         Forge.sn_random := World.random w (S n) |} /\
    Forge.serialNumber c2
    = {| Forge.sn_time := World.epoch_ms (World.reading w 2);
         Forge.sn_random := World.random w (S (S (S n))) |} /\
    Forge.notBefore c1 = World.local (World.reading w 1) /\
    Forge.notBefore c2 = World.local (World.reading w 3) /\
    (k1 = k2 <-> World.random w n = World.random w (S (S n))) /\
    (World.random w n <> World.random w (S (S n)) -> fst run1 <> fst run2) /\
    (World.random w n = World.random w (S (S n)) ->
     World.random w (S n) = World.random w (S (S (S n))) ->
     World.epoch_ms (World.reading w 0) = World.epoch_ms (World.reading w 2) ->
     World.local (World.reading w 1) = World.local (World.reading w 3) ->
     fst run1 = fst run2).
Proof.
  intros run1 run2 n. subst run1 run2 n.
  run_method. rewrite Hkey, Hcert. simpl. rewrite Hkey, Hcert. simpl.
  eexists _, _, _, _. do 14 (split; [reflexivity|]).
  split; [|split].
  - split; [intros [= H]; exact H | intros ->; reflexivity].
  - intros N [= H _]. contradiction.
  - unfold World.reading. simpl. intros -> -> -> ->. reflexivity.
Qed.

Lemma generateServerCert_mints_each_call_witness :
  let o := fst Examples.initialized in
  let w := snd Examples.initialized in
  let run1 := CertificateManager.generateServerCert "a.test" (o, w) in
  let run2 := CertificateManager.generateServerCert "a.test" (snd run1) in
  (exists ca_key ca_cert,
     CertificateManager.caKey o = Some ca_key /\
     CertificateManager.caCert o = Some ca_cert) /\
  exists k1 c1 k2 c2,
    fst run1 = Ok {| CertificateManager.key := Forge.PrivateKeyPem k1;
                     CertificateManager.cert := Forge.CertificatePem c1 |} /\
    fst run2 = Ok {| CertificateManager.key := Forge.PrivateKeyPem k2;
                     CertificateManager.cert := Forge.CertificatePem c2 |} /\
    Forge.sk_material k1 = World.random w (World.drawn w) /\
    Forge.sk_material k2 = World.random w (S (S (World.drawn w))).
Proof.
  intros o w run1 run2. split; [eexists _, _; split; reflexivity|].
  destruct (generateServerCert_mints_each_call o w "a.test" _ _ eq_refl eq_refl)
    as (k1 & c1 & k2 & c2 & H1 & H2 & _ & _ & _ & _ & _ & _ & H7 & H8 & _).
  exists k1, c1, k2, c2. auto.
Defined.

(** * Further properties of the traffic store *)

Section StoreRunFacts.
Import TrafficStorage.

Lemma max_rowid_ge (rows : list RequestDbRow) (r : RequestDbRow) :
  In r rows -> id r <= max_rowid rows.
Proof.
  induction rows as [|x rows IH]; simpl; [contradiction|].
  intros [-> | H]; [lia|]. specialize (IH H). lia.
Qed.

Lemma max_rowid_nonneg (rows : list RequestDbRow) : 0 <= max_rowid rows.
Proof. induction rows as [|x rows IH]; simpl; lia. Qed.

Lemma max_rowid_le (rows : list RequestDbRow) (b : Z) :
  0 <= b -> Forall (fun r => id r <= b) rows -> max_rowid rows <= b.
Proof.
  intros Hb H. induction H as [|x rows Hx H IH]; simpl; lia.
Qed.

Lemma find_id_none (rows : list RequestDbRow) (i : Z) :
  find (fun r => id r =? i) rows = None <-> (forall r, In r rows -> id r <> i).
Proof.
  induction rows as [|x rows IH]; simpl.
  - split; [intros _ r [] | reflexivity].
  - destruct (Z.eqb_spec (id x) i) as [E | N].
    + split; [discriminate|]. intros H. exfalso. apply (H x); auto.
    + rewrite IH. split.
      * intros H r [<- | Hr]; auto.
      * intros H r Hr. apply H. auto.
Qed.

Lemma find_id_app_new (rows : list RequestDbRow) (row : RequestDbRow) (j : Z) :
  (forall r, In r rows -> id r <> id row) ->
  find (fun r => id r =? j) (rows ++ [row])
  = if j =? id row then Some row else find (fun r => id r =? j) rows.
Proof.
  intros Hnew. induction rows as [|x rows IH]; simpl.
  - rewrite (Z.eqb_sym j). destruct (id row =? j); reflexivity.
  - destruct (Z.eqb_spec (id x) j) as [E | N].
    + destruct (Z.eqb_spec j (id row)) as [E' | _]; [|reflexivity].
      exfalso. apply (Hnew x); [left; reflexivity | congruence].
    + apply IH. intros r Hr. apply Hnew. right. exact Hr.
Qed.

Lemma find_id_update (rows : list RequestDbRow) (i j : Z) (data : ResponseData) :
  find (fun r => id r =? j) (update_where_id i data rows)
  = option_map (fun r => if id r =? i then set_response data r else r)
      (find (fun r => id r =? j) rows).
Proof.
  unfold update_where_id. induction rows as [|x rows IH]; simpl; [reflexivity|].
  assert (id (if id x =? i then set_response data x else x) = id x) as ->
    by (destruct (id x =? i); reflexivity).
  destruct (id x =? j); [reflexivity | exact IH].
Qed.

Lemma find_id_delete (rows : list RequestDbRow) (i j : Z) :
  find (fun r => id r =? j) (List.filter (fun r => negb (id r =? i)) rows)
  = if j =? i then None else find (fun r => id r =? j) rows.
Proof.
  induction rows as [|x rows IH]; simpl.
  - destruct (j =? i); reflexivity.
  - destruct (Z.eqb_spec (id x) i) as [E | N]; simpl.
    + rewrite IH. destruct (Z.eqb_spec j i) as [_ | N']; [reflexivity|].
      destruct (Z.eqb_spec (id x) j); [congruence | reflexivity].
    + destruct (Z.eqb_spec (id x) j) as [E' | _]; [|exact IH].
      destruct (Z.eqb_spec j i); [congruence | reflexivity].
Qed.

Lemma find_id_unique (rows : list RequestDbRow) (row : RequestDbRow) :
  NoDup (map id rows) -> In row rows ->
  find (fun r => id r =? id row) rows = Some row.
Proof.
  induction rows as [|x rows IH]; simpl; [contradiction|].
  intros Hnd [-> | Hin].
  - now rewrite Z.eqb_refl.
  - apply NoDup_cons in Hnd as [Hx Hnd].
    destruct (Z.eqb_spec (id x) (id row)) as [E | _]; [|auto].
    exfalso. apply Hx. rewrite E. apply list_elem_of_In, in_map. exact Hin.
Qed.

Lemma update_where_id_absent (rows : list RequestDbRow) (i : Z) (data : ResponseData) :
  (forall r, In r rows -> id r <> i) -> update_where_id i data rows = rows.
Proof.
  intros H. unfold update_where_id. rewrite <- (map_id rows) at 2.
  apply map_ext_in. intros r Hr.
  destruct (Z.eqb_spec (id r) i) as [E | _]; [|reflexivity].
  now apply H in Hr.
Qed.

Lemma filter_all {A} (p : A -> bool) (l : list A) :
  (forall x, In x l -> p x = true) -> List.filter p l = l.
Proof.
  induction l as [|x l IH]; simpl; intros H; [reflexivity|].
  rewrite (H x) by auto. f_equal. apply IH. auto.
Qed.

Lemma filter_twice {A} (p q : A -> bool) (l : list A) :
  (forall x, q x = true -> p x = true) ->
  List.filter q (List.filter p l) = List.filter q l.
Proof.
  intros H. induction l as [|x l IH]; simpl; [reflexivity|].
  destruct (p x) eqn:Ep; simpl.
  - destruct (q x); [f_equal|]; exact IH.
  - destruct (q x) eqn:Eq; [|exact IH]. apply H in Eq. congruence.
Qed.

Lemma sorted_ids_NoDup (l : list Z) : StronglySorted Z.lt l -> NoDup l.
Proof.
  induction 1 as [|x l Hs IH Hx]; constructor; [|exact IH].
  intros Hin. rewrite Forall_forall in Hx. specialize (Hx x Hin). lia.
Qed.

Lemma sublist_map {A B} (f : A -> B) (l1 l2 : list A) :
  sublist l1 l2 -> sublist (map f l1) (map f l2).
Proof. induction 1; simpl; now constructor. Qed.

Lemma sublist_filter {A} (p : A -> bool) (l : list A) : sublist (List.filter p l) l.
Proof.
  induction l as [|x l IH]; simpl; [constructor|].
  destruct (p x); now constructor.
Qed.

Lemma ids_ok_sublist (d : Database) (rows : list RequestDbRow) :
  ids_ok d -> sublist rows (requests d) -> ids_ok (with_requests d rows).
Proof.
  intros (Hs & Hb & H0) Hsub. split; [|split]; simpl.
  - eapply sublist_strongly_sorted; [apply sublist_map; exact Hsub | exact Hs].
  - rewrite Forall_forall in *. intros r Hr. apply Hb.
    eapply elem_of_sublist; eassumption.
  - exact H0.
Qed.

Lemma step_ids_ok (d d' : Database) :
  step d d' -> ids_ok d -> ids_ok d' /\ sqlite_sequence d <= sqlite_sequence d'.
Proof.
  intros Hstep (Hs & Hb & H0).
  assert (max_rowid (requests d) <= sqlite_sequence d) as Hmax.
  { apply max_rowid_le; [exact H0|].
    eapply Forall_impl; [exact Hb|]. simpl. intros r Hr. lia. }
  pose proof (max_rowid_nonneg (requests d)) as Hnn.
  destruct Hstep as [d request i d' H | d i data d' H | d i d' H | d d' H
                    | d now hours n d' H];
    cbv [saveRequest updateResponse deleteRequest clearAll deleteOlderThan db] in H;
    simplify_eq.
  - split; [|simpl; lia]. split; [|split]; simpl; [| |lia].
    + rewrite map_app. apply StronglySorted_app. split; [|split; [exact Hs|]].
      * intros x1 x2 H1 H2. apply list_elem_of_In in H1, H2.
        apply in_map_iff in H1 as (r & <- & Hr). simpl in H2. destruct H2 as [<- | []].
        apply max_rowid_ge in Hr. lia.
      * repeat constructor.
    + rewrite Forall_app. split.
      * eapply Forall_impl; [exact Hb|]. simpl. intros r Hr. lia.
      * repeat constructor; simpl; lia.
  - split; [|simpl; lia]. split; [|split]; simpl; [| |exact H0].
    + unfold update_where_id. rewrite map_map.
      erewrite map_ext; [exact Hs|]. intros r. simpl.
      destruct (id r =? i); reflexivity.
    + unfold update_where_id. rewrite Forall_map.
      eapply Forall_impl; [exact Hb|]. simpl. intros r Hr.
      destruct (id r =? i); exact Hr.
  - split; [|simpl; lia].
    apply ids_ok_sublist; [repeat split; assumption | apply sublist_filter].
  - split; [|simpl; lia]. split; [|split]; simpl; [constructor | constructor | exact H0].
  - split; [|simpl; lia].
    apply ids_ok_sublist; [repeat split; assumption | apply sublist_filter].
Qed.

Lemma steps_ids_ok (d d' : Database) :
  steps d d' -> ids_ok d -> ids_ok d' /\ sqlite_sequence d <= sqlite_sequence d'.
Proof.
  induction 1 as [d | d1 d2 d3 H12 IH H23]; intros Hok; [split; [exact Hok | lia]|].
  destruct (IH Hok) as [Hok2 Hle].
  destruct (step_ids_ok _ _ H23 Hok2) as [Hok3 Hle']. split; [exact Hok3 | lia].
Qed.

Lemma reachable_ids_ok (d : Database) : reachable d -> ids_ok d.
Proof.
  intros H. apply (steps_ids_ok _ _ H). split; [|split]; simpl; [constructor..|lia].
Qed.

Lemma ids_ok_NoDup (d : Database) : ids_ok d -> NoDup (map id (requests d)).
Proof. intros [H _]. now apply sorted_ids_NoDup. Qed.

Lemma ids_ok_max_rowid (d : Database) :
  ids_ok d -> max_rowid (requests d) <= sqlite_sequence d.
Proof.
  intros (_ & Hb & H0). apply max_rowid_le; [exact H0|].
  eapply Forall_impl; [exact Hb|]. simpl. intros r Hr. lia.
Qed.

End StoreRunFacts.

Lemma three_rows_reachable : TrafficStorage.reachable Examples.three_rows.
Proof.
  unfold TrafficStorage.reachable.
  eapply TrafficStorage.steps_step;
    [eapply TrafficStorage.steps_step;
       [eapply TrafficStorage.steps_step; [apply TrafficStorage.steps_refl|]|]|].
  - eapply (TrafficStorage.step_saveRequest _
              (TrafficStorage.mapRowToRequest
                 (Examples.exchange 0 1000 "GET" "example.test" "/" 200 "text/html"))).
    reflexivity.
  - eapply (TrafficStorage.step_saveRequest _
              (TrafficStorage.mapRowToRequest
                 (Examples.exchange 0 3000 "POST" "api.example.test" "/login" 0 ""))).
    reflexivity.
  - eapply (TrafficStorage.step_saveRequest _
              (TrafficStorage.mapRowToRequest
                 (Examples.exchange 0 2000 "GET" "example.test" "/x?y=1" 204
                    "application/json"))).
    reflexivity.
Qed.

(** X1. [saveRequest] followed by [getRequestById] on the id it returned
    gives back the request as it was written, under that id; the id is
    larger than every id stored before, and every other id reads as it
    did before the insert. *)
Theorem saveRequest_then_getRequestById
    (d : TrafficStorage.Database) (request : TrafficStorage.CapturedRequest) :
  exists i d',
    TrafficStorage.saveRequest {| TrafficStorage.db := Some d |} request
    = Ok (i, {| TrafficStorage.db := Some d' |}) /\
    (forall r, In r (TrafficStorage.requests d) -> TrafficStorage.id r < i) /\
    TrafficStorage.getRequestById {| TrafficStorage.db := Some d' |} i
    = Ok (Some (TrafficStorage.with_id i request)) /\
    (forall j, j <> i ->
       TrafficStorage.getRequestById {| TrafficStorage.db := Some d' |} j
       = TrafficStorage.getRequestById {| TrafficStorage.db := Some d |} j).
Proof.
  eexists _, _. split; [reflexivity|].
  assert (forall r, In r (TrafficStorage.requests d) ->
            TrafficStorage.id r
            < Z.max (TrafficStorage.sqlite_sequence d)
                    (TrafficStorage.max_rowid (TrafficStorage.requests d)) + 1) as Hlt.
  { intros r Hr. apply max_rowid_ge in Hr. lia. }
  split; [exact Hlt|].
  unfold TrafficStorage.getRequestById. simpl.
  split.
  - rewrite find_id_app_new by (simpl; intros r Hr; apply Hlt in Hr; lia).
    simpl. rewrite Z.eqb_refl. reflexivity.
  - intros j Hj.
    rewrite find_id_app_new by (simpl; intros r Hr; apply Hlt in Hr; lia).
    simpl. apply Z.eqb_neq in Hj. rewrite Hj. reflexivity.
Qed.

(** X2. Ids are never reused: in a database reached from an empty file,
    an id handed out by [saveRequest] is smaller than every id handed out
    later, whatever was updated, deleted, cleared or swept in between,
    and the ids stored at any time are pairwise distinct. *)
Theorem saveRequest_ids_never_reused
    (d1 d1' d2 d2' : TrafficStorage.Database)
    (request1 request2 : TrafficStorage.CapturedRequest) (i1 i2 : Z)
    (Hr : TrafficStorage.reachable d1)
    (H1 : TrafficStorage.saveRequest {| TrafficStorage.db := Some d1 |} request1
          = Ok (i1, {| TrafficStorage.db := Some d1' |}))
    (Hs : TrafficStorage.steps d1' d2)
    (H2 : TrafficStorage.saveRequest {| TrafficStorage.db := Some d2 |} request2
          = Ok (i2, {| TrafficStorage.db := Some d2' |})) :
  i1 < i2 /\
  i1 = TrafficStorage.sqlite_sequence d1 + 1 /\
  NoDup (map TrafficStorage.id (TrafficStorage.requests d2')).
Proof.
  apply reachable_ids_ok in Hr.
  assert (TrafficStorage.ids_ok d1' /\
          TrafficStorage.sqlite_sequence d1 <= TrafficStorage.sqlite_sequence d1') as [Hok1 _]
    by (eapply step_ids_ok; [eapply TrafficStorage.step_saveRequest; exact H1 | exact Hr]).
  destruct (steps_ids_ok _ _ Hs Hok1) as [Hok2 Hle].
  assert (TrafficStorage.ids_ok d2' /\
          TrafficStorage.sqlite_sequence d2 <= TrafficStorage.sqlite_sequence d2') as [Hok2' _]
    by (eapply step_ids_ok; [eapply TrafficStorage.step_saveRequest; exact H2 | exact Hok2]).
  split; [|split; [|now apply ids_ok_NoDup]].
  - pose proof (max_rowid_nonneg (TrafficStorage.requests d1)) as Hn1.
    pose proof (max_rowid_nonneg (TrafficStorage.requests d2)) as Hn2.
    cbv [TrafficStorage.saveRequest TrafficStorage.db] in H1, H2. simplify_eq. simpl in *.
    lia.
  - pose proof (ids_ok_max_rowid _ Hr) as Hmax. destruct Hr as (_ & _ & H0).
    cbv [TrafficStorage.saveRequest TrafficStorage.db] in H1. simplify_eq. lia.
Qed.

Lemma saveRequest_ids_never_reused_witness :
  let request1 :=
    TrafficStorage.mapRowToRequest (Examples.exchange 0 4000 "GET" "a.test" "/" 0 "") in
  let request2 :=
    TrafficStorage.mapRowToRequest (Examples.exchange 0 5000 "GET" "a.test" "/" 0 "") in
  let d1' :=
    {| TrafficStorage.requests :=
         TrafficStorage.requests Examples.three_rows ++
         [Examples.exchange 4 4000 "GET" "a.test" "/" 0 ""];
       TrafficStorage.sqlite_sequence := 4 |} in
  let d2 := {| TrafficStorage.requests := []; TrafficStorage.sqlite_sequence := 4 |} in
  let d2' :=
    {| TrafficStorage.requests := [Examples.exchange 5 5000 "GET" "a.test" "/" 0 ""];
       TrafficStorage.sqlite_sequence := 5 |} in
  TrafficStorage.saveRequest Examples.store request1
  = Ok (4, {| TrafficStorage.db := Some d1' |}) /\
  TrafficStorage.saveRequest {| TrafficStorage.db := Some d2 |} request2
  = Ok (5, {| TrafficStorage.db := Some d2' |}) /\
  4 < 5 /\
  4 = TrafficStorage.sqlite_sequence Examples.three_rows + 1 /\
  NoDup (map TrafficStorage.id (TrafficStorage.requests d2')).
Proof.
  intros request1 request2 d1' d2 d2'.
  split; [reflexivity|]. split; [reflexivity|].
  apply (saveRequest_ids_never_reused Examples.three_rows d1' d2 d2' request1 request2 4 5
           three_rows_reachable eq_refl).
  - eapply TrafficStorage.steps_step; [apply TrafficStorage.steps_refl|].
    eapply TrafficStorage.step_clearAll. reflexivity.
  - reflexivity.
Defined.

(** X3. [updateResponse] on a stored id followed by [getRequestById]
    gives back the exchange with its request half as before and its
    response half as just written; every other id reads as before, and
    the number of rows does not change. *)
Theorem updateResponse_then_getRequestById
    (d : TrafficStorage.Database) (i : Z) (data : TrafficStorage.ResponseData)
    (r0 : TrafficStorage.CapturedRequest)
    (Hget : TrafficStorage.getRequestById {| TrafficStorage.db := Some d |} i
            = Ok (Some r0)) :
  exists d',
    TrafficStorage.updateResponse {| TrafficStorage.db := Some d |} i data
    = Ok {| TrafficStorage.db := Some d' |} /\
    TrafficStorage.getRequestById {| TrafficStorage.db := Some d' |} i
    = Ok (Some (TrafficStorage.with_response data r0)) /\
    (forall j, j <> i ->
       TrafficStorage.getRequestById {| TrafficStorage.db := Some d' |} j
       = TrafficStorage.getRequestById {| TrafficStorage.db := Some d |} j) /\
    length (TrafficStorage.requests d') = length (TrafficStorage.requests d).
Proof.
  eexists. split; [reflexivity|].
  unfold TrafficStorage.getRequestById in *. simpl in *.
  injection Hget as Hget.
  split; [|split].
  - rewrite find_id_update.
    destruct (find _ (TrafficStorage.requests d)) as [row|] eqn:Hfind; [|discriminate].
    apply find_some in Hfind as [_ Hid]. simpl. rewrite Hid.
    simpl in Hget. injection Hget as <-. reflexivity.
  - intros j Hj. rewrite find_id_update. clear Hget.
    destruct (find (fun r => TrafficStorage.id r =? j) (TrafficStorage.requests d))
      as [row|] eqn:Hfind; [|reflexivity].
    apply find_some in Hfind as [_ Hid]. simpl.
    apply Z.eqb_eq in Hid. subst j. apply Z.eqb_neq in Hj. rewrite Hj. reflexivity.
  - unfold TrafficStorage.update_where_id. apply length_map.
Qed.

Lemma updateResponse_then_getRequestById_witness :
  TrafficStorage.getRequestById Examples.store 2
  = Ok (Some (TrafficStorage.mapRowToRequest
                (Examples.exchange 2 3000 "POST" "api.example.test" "/login" 0 ""))) /\
  exists d',
    TrafficStorage.updateResponse Examples.store 2 Examples.not_found
    = Ok {| TrafficStorage.db := Some d' |} /\
    TrafficStorage.getRequestById {| TrafficStorage.db := Some d' |} 2
    = Ok (Some (TrafficStorage.with_response Examples.not_found
                  (TrafficStorage.mapRowToRequest
                     (Examples.exchange 2 3000 "POST" "api.example.test" "/login" 0 "")))).
Proof.
  split; [reflexivity|].
  destruct (updateResponse_then_getRequestById Examples.three_rows 2 Examples.not_found _
              eq_refl) as (d' & H1 & H2 & _).
  exists d'. split; assumption.
Defined.

(** X4. [updateResponse] on an id that is not stored changes nothing: it
    inserts no row and touches no other row. *)
Theorem updateResponse_absent_id
    (d : TrafficStorage.Database) (i : Z) (data : TrafficStorage.ResponseData)
    (Hget : TrafficStorage.getRequestById {| TrafficStorage.db := Some d |} i = Ok None) :
  TrafficStorage.updateResponse {| TrafficStorage.db := Some d |} i data
  = Ok {| TrafficStorage.db := Some d |}.
Proof.
  unfold TrafficStorage.getRequestById, TrafficStorage.updateResponse in *. simpl in *.
  injection Hget as Hget.
  destruct (find _ (TrafficStorage.requests d)) eqn:Hfind; [discriminate|].
  rewrite find_id_none in Hfind.
  unfold TrafficStorage.with_requests. rewrite update_where_id_absent by exact Hfind.
  destruct d; reflexivity.
Qed.

Lemma updateResponse_absent_id_witness :
  TrafficStorage.getRequestById Examples.store 7 = Ok None /\
  TrafficStorage.updateResponse Examples.store 7 Examples.not_found = Ok Examples.store.
Proof.
  split; [reflexivity|].
  exact (updateResponse_absent_id Examples.three_rows 7 Examples.not_found eq_refl).
Defined.

(** X5. After [deleteRequest(id)] the id reads as null and every other
    id reads as before; deleting an id that is not stored changes
    nothing. *)
Theorem deleteRequest_then_getRequestById (d : TrafficStorage.Database) (i : Z) :
  exists d',
    TrafficStorage.deleteRequest {| TrafficStorage.db := Some d |} i
    = Ok {| TrafficStorage.db := Some d' |} /\
    TrafficStorage.getRequestById {| TrafficStorage.db := Some d' |} i = Ok None /\
    (forall j, j <> i ->
       TrafficStorage.getRequestById {| TrafficStorage.db := Some d' |} j
       = TrafficStorage.getRequestById {| TrafficStorage.db := Some d |} j) /\
    (TrafficStorage.getRequestById {| TrafficStorage.db := Some d |} i = Ok None ->
     d' = d).
Proof.
  eexists. split; [reflexivity|].
  unfold TrafficStorage.getRequestById. simpl.
  split; [|split].
  - rewrite find_id_delete, Z.eqb_refl. reflexivity.
  - intros j Hj. rewrite find_id_delete. apply Z.eqb_neq in Hj. rewrite Hj. reflexivity.
  - intros Hget. injection Hget as Hget.
    destruct (find _ (TrafficStorage.requests d)) eqn:Hfind; [discriminate|].
    rewrite find_id_none in Hfind.
    unfold TrafficStorage.with_requests. rewrite filter_all.
    + destruct d; reflexivity.
    + intros r Hr. apply Hfind in Hr. apply Z.eqb_neq in Hr. now rewrite Hr.
Qed.

(** X6. After [clearAll] every query returns the empty list and every
    count is 0, whatever the filter; the id counter is kept, so the next
    [saveRequest] still returns an id larger than every id the table
    held before it was cleared. *)
Theorem clearAll_empties_and_keeps_counter
    (d : TrafficStorage.Database) (Hr : TrafficStorage.reachable d) :
  exists d',
    TrafficStorage.clearAll {| TrafficStorage.db := Some d |}
    = Ok {| TrafficStorage.db := Some d' |} /\
    (forall filter,
       TrafficStorage.getRequests {| TrafficStorage.db := Some d' |} filter = Ok [] /\
       TrafficStorage.getRequestCount {| TrafficStorage.db := Some d' |} filter = Ok 0) /\
    TrafficStorage.getUniqueHosts {| TrafficStorage.db := Some d' |} = Ok [] /\
    (forall request, exists i d'',
       TrafficStorage.saveRequest {| TrafficStorage.db := Some d' |} request
       = Ok (i, {| TrafficStorage.db := Some d'' |}) /\
       i = TrafficStorage.sqlite_sequence d + 1 /\
       forall r, In r (TrafficStorage.requests d) -> TrafficStorage.id r < i).
Proof.
  apply reachable_ids_ok in Hr. destruct Hr as (_ & Hb & H0).
  eexists. split; [reflexivity|]. split; [|split].
  - intros flt. split; [|reflexivity].
    unfold TrafficStorage.getRequests, TrafficStorage.select_requests. simpl.
    assert (forall f, TrafficStorage.paginate f [] = []) as Hp.
    { intros [f|]; [|reflexivity]. unfold TrafficStorage.paginate.
      destruct (TrafficStorage.truthy_number (TrafficStorage.limit f)) as [n|]; [|reflexivity].
      unfold Sqlite.limit_offset.
      destruct (TrafficStorage.truthy_number (TrafficStorage.offset f)) as [k|];
        rewrite skipn_nil; destruct (n <? 0); try reflexivity; apply firstn_nil. }
    replace (match flt with Some _ | _ => @nil TrafficStorage.RequestDbRow end)
      with (@nil TrafficStorage.RequestDbRow) by (destruct flt; reflexivity).
    change (TrafficStorage.order_by_timestamp_desc []) with (@nil TrafficStorage.RequestDbRow).
    now rewrite Hp.
  - reflexivity.
  - intros request. eexists _, _. split; [reflexivity|]. simpl.
    split; [lia|]. intros r Hr. rewrite Forall_forall in Hb.
    apply list_elem_of_In in Hr. specialize (Hb r Hr). lia.
Qed.

Lemma clearAll_empties_and_keeps_counter_witness :
  TrafficStorage.reachable Examples.three_rows /\
  exists d',
    TrafficStorage.clearAll Examples.store = Ok {| TrafficStorage.db := Some d' |} /\
    forall filter,
      TrafficStorage.getRequests {| TrafficStorage.db := Some d' |} filter = Ok [] /\
      TrafficStorage.getRequestCount {| TrafficStorage.db := Some d' |} filter = Ok 0.
Proof.
  split; [exact three_rows_reachable|].
  destruct (clearAll_empties_and_keeps_counter Examples.three_rows three_rows_reachable)
    as (d' & H1 & H2 & _).
  exists d'. split; assumption.
Defined.

(** X7. With no filter, or with a filter that asks for nothing but a
    free-text match and sets no limit, [getRequestCount] equals the
    number of exchanges [getRequests] returns for the same filter. *)
Theorem getRequestCount_matches_getRequests
    (d : TrafficStorage.Database) (flt : option TrafficStorage.FilterOptions)
    (Hf : forall f, flt = Some f -> TrafficStorage.search_only f) :
  exists rs,
    TrafficStorage.getRequests {| TrafficStorage.db := Some d |} flt = Ok rs /\
    TrafficStorage.getRequestCount {| TrafficStorage.db := Some d |} flt
    = Ok (Z.of_nat (length rs)).
Proof.
  eexists. split; [reflexivity|].
  unfold TrafficStorage.getRequestCount, TrafficStorage.select_requests. simpl.
  do 2 f_equal. rewrite length_map.
  destruct flt as [f|]; simpl.
  - destruct (Hf f eq_refl) as (Hm & Hs & Hh & Hc & Hd & Hl).
    rewrite Hl, (Permutation_length (order_by_timestamp_desc_perm _)).
    f_equal. apply filter_ext. intros r. unfold TrafficStorage.where_clause.
    rewrite Hm, Hs, Hh, Hc, Hd. now rewrite !andb_true_r.
  - rewrite (Permutation_length (order_by_timestamp_desc_perm _)).
    f_equal. apply filter_all. reflexivity.
Qed.

Lemma getRequestCount_matches_getRequests_witness :
  let f := {| TrafficStorage.searchQuery := Some "EXAMPLE"%string;
              TrafficStorage.methods := Some [];
              TrafficStorage.statusCodes := None;
              TrafficStorage.hosts := None;
              TrafficStorage.contentTypes := None;
              TrafficStorage.dateRange := None;
              TrafficStorage.limit := None;
              TrafficStorage.offset := None |} in
  TrafficStorage.search_only f /\
  exists rs,
    TrafficStorage.getRequests Examples.store (Some f) = Ok rs /\
    TrafficStorage.getRequestCount Examples.store (Some f) = Ok (Z.of_nat (length rs)).
Proof.
  intros f.
  assert (TrafficStorage.search_only f) as Hs by (repeat split).
  split; [exact Hs|].
  apply (getRequestCount_matches_getRequests Examples.three_rows (Some f)).
  intros f' [= <-]. exact Hs.
Defined.

(** X8. The lists of distinct hosts, methods and content types hold no
    value twice, and the hosts and the methods come in ascending
    order. *)
Theorem getUnique_lists_no_duplicates (d : TrafficStorage.Database) :
  exists hs ms cts,
    TrafficStorage.getUniqueHosts {| TrafficStorage.db := Some d |} = Ok hs /\
    TrafficStorage.getUniqueMethods {| TrafficStorage.db := Some d |} = Ok ms /\
    TrafficStorage.getUniqueContentTypes {| TrafficStorage.db := Some d |} = Ok cts /\
    NoDup hs /\ NoDup ms /\ NoDup cts /\
    Sorted String.le hs /\ Sorted String.le ms.
Proof.
  assert (forall l, NoDup (Sqlite.distinct l)) as Hd.
  { induction l as [|x l IH]; simpl; constructor.
    - rewrite list_elem_of_In, filter_In. intros [_ H].
      destruct (String.eqb_spec x x); [discriminate | congruence].
    - eapply sublist_NoDup; [exact IH | apply sublist_filter]. }
  assert (forall l, NoDup (TrafficStorage.order_by_text (Sqlite.distinct l))) as Ho.
  { intros l. unfold TrafficStorage.order_by_text.
    rewrite merge_sort_Permutation. apply Hd. }
  eexists _, _, _. do 3 (split; [reflexivity|]).
  split; [apply Ho|]. split; [apply Ho|]. split; [apply Ho|].
  split; apply order_by_text_sorted.
Qed.

(** X9. Two sweeps in a row, the second with a cut-off time that is not
    earlier than the first one's, leave what the second sweep alone
    would have left, and their return values add up to its return
    value; a sweep repeated with the same cut-off removes nothing. *)
Theorem deleteOlderThan_twice
    (d : TrafficStorage.Database) (now1 hours1 now2 hours2 : Z)
    (Hle : now1 - hours1 * 3600000 <= now2 - hours2 * 3600000) :
  exists n1 d1 n2 d2 n,
    TrafficStorage.deleteOlderThan {| TrafficStorage.db := Some d |} now1 hours1
    = Ok (n1, {| TrafficStorage.db := Some d1 |}) /\
    TrafficStorage.deleteOlderThan {| TrafficStorage.db := Some d1 |} now2 hours2
    = Ok (n2, {| TrafficStorage.db := Some d2 |}) /\
    TrafficStorage.deleteOlderThan {| TrafficStorage.db := Some d |} now2 hours2
    = Ok (n, {| TrafficStorage.db := Some d2 |}) /\
    n = n1 + n2 /\
    (now1 - hours1 * 3600000 = now2 - hours2 * 3600000 -> n2 = 0 /\ d2 = d1).
Proof.
  eexists _, _, _, _, _. split; [reflexivity|]. split; [reflexivity|].
  unfold TrafficStorage.deleteOlderThan, TrafficStorage.with_requests. simpl.
  set (c1 := now1 - hours1 * 60 * 60 * 1000).
  set (c2 := now2 - hours2 * 60 * 60 * 1000).
  assert (c1 <= c2) as Hc by (subst c1 c2; lia).
  set (rows := TrafficStorage.requests d).
  assert (List.filter (fun r => negb (TrafficStorage.timestamp r <? c2))
            (List.filter (fun r => negb (TrafficStorage.timestamp r <? c1)) rows)
          = List.filter (fun r => negb (TrafficStorage.timestamp r <? c2)) rows) as Hkeep.
  { apply filter_twice. intros r.
    destruct (Z.ltb_spec (TrafficStorage.timestamp r) c2),
             (Z.ltb_spec (TrafficStorage.timestamp r) c1); simpl; auto; lia. }
  rewrite Hkeep. split; [reflexivity|].
  pose proof (filter_split_length (fun r => TrafficStorage.timestamp r <? c1) rows) as L1.
  pose proof (filter_split_length (fun r => TrafficStorage.timestamp r <? c2) rows) as L2.
  pose proof (filter_split_length (fun r => TrafficStorage.timestamp r <? c2)
                (List.filter (fun r => negb (TrafficStorage.timestamp r <? c1)) rows)) as L3.
  cbv beta in L1, L2, L3. rewrite Hkeep in L3.
  fold c2 rows.
  split; [lia|].
  intros Heq. assert (c1 = c2) as E by (subst c1 c2; lia).
  rewrite <- E in *.
  assert (List.filter (fun r => TrafficStorage.timestamp r <? c1)
            (List.filter (fun r => negb (TrafficStorage.timestamp r <? c1)) rows) = []) as Hnone.
  { clear. induction rows as [|r rows IH]; simpl; [reflexivity|].
    destruct (TrafficStorage.timestamp r <? c1) eqn:Et; simpl; [exact IH|].
    rewrite Et. exact IH. }
  rewrite Hnone. split; reflexivity.
Qed.

Lemma deleteOlderThan_twice_witness :
  Examples.t_now - 1 * 3600000 <= Examples.t_now - 1 * 3600000 /\
  exists n1 d1 n2 d2 n,
    TrafficStorage.deleteOlderThan {| TrafficStorage.db := Some Examples.two_ages |}
      Examples.t_now 1
    = Ok (n1, {| TrafficStorage.db := Some d1 |}) /\
    TrafficStorage.deleteOlderThan {| TrafficStorage.db := Some d1 |} Examples.t_now 1
    = Ok (n2, {| TrafficStorage.db := Some d2 |}) /\
    TrafficStorage.deleteOlderThan {| TrafficStorage.db := Some Examples.two_ages |}
      Examples.t_now 1
    = Ok (n, {| TrafficStorage.db := Some d2 |}) /\
    n = n1 + n2.
Proof.
  split; [lia|].
  destruct (deleteOlderThan_twice Examples.two_ages Examples.t_now 1 Examples.t_now 1
              ltac:(lia)) as (n1 & d1 & n2 & d2 & n & H1 & H2 & H3 & H4 & _).
  exists n1, d1, n2, d2, n. auto.
Defined.

(** X10. Pages tile the result: for a positive page size, a page never
    holds more rows than its limit, and the page at offset k followed by
    the next page (offset k + n) is the double-size page at offset k. So
    walking the offsets 0, n, 2n, ... returns every matching exchange
    once, in order. *)
Theorem getRequests_pages_tile
    (d : TrafficStorage.Database) (f : TrafficStorage.FilterOptions) (n m k : Z)
    (Hn : 0 < n) (Hm : 0 < m) (Hk : 0 <= k) :
  exists page1 page2 both,
    TrafficStorage.getRequests {| TrafficStorage.db := Some d |}
      (Some (TrafficStorage.with_page f n k)) = Ok page1 /\
    TrafficStorage.getRequests {| TrafficStorage.db := Some d |}
      (Some (TrafficStorage.with_page f m (k + n))) = Ok page2 /\
    TrafficStorage.getRequests {| TrafficStorage.db := Some d |}
      (Some (TrafficStorage.with_page f (n + m) k)) = Ok both /\
    page1 ++ page2 = both /\
    Z.of_nat (length page1) <= n.
Proof.
  eexists _, _, _. do 3 (split; [reflexivity|]).
  assert (forall lim off rows, 0 < lim -> 0 <= off ->
            TrafficStorage.paginate (Some (TrafficStorage.with_page f lim off)) rows
            = firstn (Z.to_nat lim) (skipn (Z.to_nat off) rows)) as Hp.
  { intros lim off rows Hlim Hoff.
    unfold TrafficStorage.paginate, TrafficStorage.truthy_number. simpl.
    destruct (Z.eqb_spec lim 0); [lia|].
    unfold Sqlite.limit_offset. destruct (Z.ltb_spec lim 0); [lia|].
    destruct (Z.eqb_spec off 0) as [-> | _]; reflexivity. }
  unfold TrafficStorage.select_requests.
  change (TrafficStorage.where_clause (TrafficStorage.with_page f n k))
    with (TrafficStorage.where_clause f).
  change (TrafficStorage.where_clause (TrafficStorage.with_page f m (k + n)))
    with (TrafficStorage.where_clause f).
  change (TrafficStorage.where_clause (TrafficStorage.with_page f (n + m) k))
    with (TrafficStorage.where_clause f).
  rewrite !Hp by lia.
  set (all := TrafficStorage.order_by_timestamp_desc _).
  split.
  - rewrite <- map_app. f_equal.
    rewrite !Z2Nat.inj_add by lia.
    rewrite <- (drop_drop all). apply take_take_drop.
  - rewrite length_map, length_take. lia.
Qed.

Lemma getRequests_pages_tile_witness :
  0 < 1 /\ 0 < 2 /\ 0 <= 0 /\
  exists page1 page2 both,
    TrafficStorage.getRequests Examples.store
      (Some (TrafficStorage.with_page (Examples.only_methods []) 1 0)) = Ok page1 /\
    TrafficStorage.getRequests Examples.store
      (Some (TrafficStorage.with_page (Examples.only_methods []) 2 (0 + 1))) = Ok page2 /\
    TrafficStorage.getRequests Examples.store
      (Some (TrafficStorage.with_page (Examples.only_methods []) (1 + 2) 0)) = Ok both /\
    page1 ++ page2 = both /\
    Z.of_nat (length page1) <= 1.
Proof.
  split; [lia|]. split; [lia|]. split; [lia|].
  apply (getRequests_pages_tile Examples.three_rows (Examples.only_methods []) 1 2 0); lia.
Defined.

(** X11. The list and the detail view agree: in a database reached from
    an empty file, every exchange that [getRequests] returns, for
    whatever filter, is the one [getRequestById] returns for its id. *)
Theorem getRequests_agrees_with_getRequestById
    (d : TrafficStorage.Database) (flt : option TrafficStorage.FilterOptions)
    (rs : list TrafficStorage.CapturedRequest) (r : TrafficStorage.CapturedRequest)
    (Hr : TrafficStorage.reachable d)
    (Hq : TrafficStorage.getRequests {| TrafficStorage.db := Some d |} flt = Ok rs)
    (Hin : In r rs) :
  TrafficStorage.getRequestById {| TrafficStorage.db := Some d |} (TrafficStorage.cr_id r)
  = Ok (Some r).
Proof.
  apply reachable_ids_ok, ids_ok_NoDup in Hr.
  unfold TrafficStorage.getRequests in Hq. simpl in Hq. injection Hq as <-.
  apply in_map_iff in Hin as (row & <- & Hin).
  assert (In row (TrafficStorage.requests d)) as Hrow.
  { unfold TrafficStorage.select_requests in Hin.
    apply (sublist_In _ _ _ (paginate_sublist _ _)) in Hin.
    apply (Permutation_in _ (order_by_timestamp_desc_perm _)) in Hin.
    destruct flt as [f|]; [now apply filter_In in Hin | exact Hin]. }
  unfold TrafficStorage.getRequestById. simpl.
  now rewrite (find_id_unique _ _ Hr Hrow).
Qed.

Lemma getRequests_agrees_with_getRequestById_witness :
  let r := TrafficStorage.mapRowToRequest
             (Examples.exchange 2 3000 "POST" "api.example.test" "/login" 0 "") in
  TrafficStorage.reachable Examples.three_rows /\
  TrafficStorage.getRequests Examples.store (Some (Examples.only_methods ["POST"%string]))
  = Ok [r] /\
  TrafficStorage.getRequestById Examples.store (TrafficStorage.cr_id r) = Ok (Some r).
Proof.
  intros r. split; [exact three_rows_reachable|].
  assert (TrafficStorage.getRequests Examples.store
            (Some (Examples.only_methods ["POST"%string])) = Ok [r]) as Hq
    by (vm_compute; reflexivity).
  split; [exact Hq|].
  apply (getRequests_agrees_with_getRequestById Examples.three_rows _ [r] r
           three_rows_reachable Hq).
  left. reflexivity.
Defined.

(** * Further properties of the certificate manager *)

Section ManagerRunFacts.
Import Forge CertificateManager.

Lemma with_certsDir_fields (o : t) (w : World.t) :
  World.files (World.fs (with_certsDir o w)) = World.files (World.fs w) /\
  World.drawn (with_certsDir o w) = World.drawn w /\
  World.random (with_certsDir o w) = World.random w /\
  World.clock (with_certsDir o w) = World.clock w /\
  World.reads (with_certsDir o w) = World.reads w /\
  World.trace (with_certsDir o w)
  = World.trace w ++
    (if World.existsSync (certsDir o) (World.fs w) then []
     else [World.MkdirSync (certsDir o)]).
Proof.
  unfold with_certsDir.
  destruct (World.existsSync (certsDir o) (World.fs w)); simpl;
    [rewrite app_nil_r|]; auto 10.
Qed.

Lemma existsSync_write_other (p f : string) (data : Pem) (fs : World.FileSystem) :
  p <> f ->
  World.existsSync p (World.apply_op fs (World.WriteFileSync f data)) = World.existsSync p fs.
Proof.
  intros N. unfold World.existsSync. simpl. now rewrite lookup_insert_ne by congruence.
Qed.

Lemma existsSync_write_same (f : string) (data : Pem) (fs : World.FileSystem) :
  World.existsSync f (World.apply_op fs (World.WriteFileSync f data)) = true.
Proof.
  unfold World.existsSync. simpl. rewrite lookup_insert_eq.
  rewrite bool_decide_eq_true_2 by eauto. reflexivity.
Qed.

Lemma existsSync_certsDir_after (o : t) (w : World.t) :
  World.existsSync (certsDir o) (World.fs (with_certsDir o w)) = true.
Proof.
  unfold with_certsDir.
  destruct (World.existsSync (certsDir o) (World.fs w)) eqn:E; [exact E|].
  unfold World.existsSync. simpl.
  rewrite (bool_decide_eq_true_2 (certsDir o ∈ {[certsDir o]} ∪ _)) by set_solver.
  apply orb_true_r.
Qed.

Lemma initialize_generates (o : t) (w : World.t) :
  well_formed o -> both_exist o w = false ->
  exists k c w',
    initialize (o, w)
    = (Ok tt, ({| certsDir := certsDir o; caKeyPath := caKeyPath o;
                  caCertPath := caCertPath o; caKey := Some k; caCert := Some c |}, w')) /\
    World.files (World.fs w')
    = <[caCertPath o := CertificatePem c]>
        (<[caKeyPath o := PrivateKeyPem k]> (World.files (World.fs w))) /\
    World.dirs (World.fs w') = World.dirs (World.fs (with_certsDir o w)).
Proof.
  intros Hwf Hmiss.
  rewrite initialize_unfold, (both_exist_with_certsDir o w Hwf), Hmiss.
  destruct (with_certsDir_fields o w) as (Hf & _).
  run_method. simpl. eexists _, _, _. split; [reflexivity|].
  simpl. rewrite Hf. split; reflexivity.
Qed.

Lemma initialize_root_ca_key (o : t) (w : World.t) :
  well_formed o -> both_exist o w = false ->
  forall k c,
    caKey (fst (snd (initialize (o, w)))) = Some k ->
    caCert (fst (snd (initialize (o, w)))) = Some c ->
    cert_publicKey c = publicKey (keyPairOf (sk_bits k) (sk_material k)).
Proof.
  intros Hwf Hmiss k c.
  rewrite initialize_unfold, (both_exist_with_certsDir o w Hwf), Hmiss.
  run_method. simpl. intros [= <-] [= <-]. reflexivity.
Qed.

End ManagerRunFacts.

(** X12. The root CA contract. When [initialize] generates (a file is
    missing), the CA it leaves in the object is an RSA-2048 key and a
    certificate for its public half that is self-signed with SHA-256,
    has subject and issuer equal with common name "Trafexia Root CA",
    is valid from now until the same calendar day ten years later, and
    carries basicConstraints{cA, critical}, keyUsage{keyCertSign,
    digitalSignature, cRLSign, critical} and subjectKeyIdentifier. *)
Theorem initialize_root_ca_contract
    (o : CertificateManager.t) (w : World.t)
    (Hr : CertificateManager.reachable o)
    (Hmiss : CertificateManager.both_exist o w = false) :
  exists k c,
    CertificateManager.caKey (fst (snd (CertificateManager.initialize (o, w)))) = Some k /\
    CertificateManager.caCert (fst (snd (CertificateManager.initialize (o, w)))) = Some c /\
    Forge.sk_bits k = 2048 /\
    Forge.cert_publicKey c = Forge.publicKey (Forge.keyPairOf 2048 (Forge.sk_material k)) /\
    Forge.subject c = Forge.issuer c /\
    In {| Forge.name := "commonName"; Forge.value := "Trafexia Root CA" |} (Forge.subject c) /\
    Forge.signature c = Some {| Forge.signer := k; Forge.md := Forge.sha256 |} /\
    Spec.chains_to c c /\
    Forge.notBefore c = World.local (World.reading w 1) /\
    Forge.notAfter c
    = JsDate.make (JsDate.getFullYear (World.local (World.reading w 1)) + 10)
                  (JsDate.getMonth (World.local (World.reading w 1)))
                  (JsDate.getDate (World.local (World.reading w 1))) /\
    Forge.extensions c
    = [ Forge.basicConstraints true true;
        Forge.keyUsage [Forge.keyCertSign; Forge.digitalSignature; Forge.cRLSign] true;
        Forge.subjectKeyIdentifier ].
Proof.
  apply reachable_well_formed in Hr.
  rewrite initialize_unfold, (both_exist_with_certsDir o w Hr), Hmiss.
  destruct (with_certsDir_fields o w) as (_ & _ & _ & Hclock & Hreads & _).
  run_method. unfold World.reading. simpl. rewrite Hclock, Hreads.
  eexists _, _. do 5 (split; [reflexivity|]).
  split; [left; reflexivity|]. split; [reflexivity|].
  split; [|repeat split; reflexivity].
  split; [reflexivity|]. eexists _, _. split; reflexivity.
Qed.

Lemma initialize_root_ca_contract_witness :
  CertificateManager.reachable Examples.manager /\
  CertificateManager.both_exist Examples.manager Examples.first_run = false /\
  exists k c,
    CertificateManager.caKey
      (fst (snd (CertificateManager.initialize (Examples.manager, Examples.first_run))))
    = Some k /\
    CertificateManager.caCert
      (fst (snd (CertificateManager.initialize (Examples.manager, Examples.first_run))))
    = Some c /\
    Forge.sk_bits k = 2048 /\
    Spec.chains_to c c.
Proof.
  assert (CertificateManager.both_exist Examples.manager Examples.first_run = false) as Hm
    by (vm_compute; reflexivity).
  split; [constructor|]. split; [exact Hm|].
  destruct (initialize_root_ca_contract Examples.manager Examples.first_run
              (CertificateManager.reachable_new "/data") Hm)
    as (k & c & H1 & H2 & H3 & _ & _ & _ & _ & H8 & _).
  exists k, c. auto.
Defined.

(** X13. What the first run wrote, a later run loads: after an
    [initialize] that generated the CA, a fresh object for the same
    directory, initialized over the files left on disk (at any time, with
    any generator), ends up with the same key and certificate, draws no
    randomness and changes nothing on disk. *)
Theorem initialize_restart_loads_same_ca
    (userDataPath : string) (w w2 : World.t)
    (Hmiss : CertificateManager.both_exist (CertificateManager.new userDataPath) w = false)
    (Hdisk : World.fs w2
             = World.fs (snd (snd (CertificateManager.initialize
                                     (CertificateManager.new userDataPath, w))))) :
  CertificateManager.initialize (CertificateManager.new userDataPath, w2)
  = (Ok tt, (fst (snd (CertificateManager.initialize
                         (CertificateManager.new userDataPath, w))), w2)).
Proof.
  set (o := CertificateManager.new userDataPath) in *.
  assert (CertificateManager.well_formed o) as Hwf
    by (apply reachable_well_formed; constructor).
  pose proof (well_formed_paths o Hwf) as [Hkd Hcd].
  pose proof (well_formed_two_files o Hwf) as Hkc.
  pose proof (existsSync_certsDir_after o w) as Hdir.
  destruct (initialize_generates o w Hwf Hmiss) as (k & c & w' & Hrun & Hfiles & Hdirs).
  rewrite Hrun in Hdisk |- *. simpl in Hdisk |- *.
  assert (World.existsSync (CertificateManager.certsDir o) (World.fs w2) = true) as Hdir2.
  { rewrite <- Hdir. unfold World.existsSync. rewrite Hdisk, Hfiles, Hdirs.
    rewrite !lookup_insert_ne by congruence.
    destruct (with_certsDir_fields o w) as (-> & _). reflexivity. }
  assert (World.files (World.fs w2) !! CertificateManager.caKeyPath o
          = Some (Forge.PrivateKeyPem k)) as Hk.
  { rewrite Hdisk, Hfiles. rewrite lookup_insert_ne by congruence.
    apply lookup_insert_eq. }
  assert (World.files (World.fs w2) !! CertificateManager.caCertPath o
          = Some (Forge.CertificatePem c)) as Hc.
  { rewrite Hdisk, Hfiles. apply lookup_insert_eq. }
  rewrite initialize_unfold.
  assert (CertificateManager.with_certsDir o w2 = w2) as ->
    by (unfold CertificateManager.with_certsDir; now rewrite Hdir2).
  assert (CertificateManager.both_exist o w2 = true) as ->.
  { unfold CertificateManager.both_exist, World.existsSync. rewrite Hk, Hc.
    rewrite !bool_decide_eq_true_2 by eauto. reflexivity. }
  run_method. rewrite Hk, Hc. reflexivity.
Qed.

Lemma initialize_restart_loads_same_ca_witness :
  CertificateManager.both_exist (CertificateManager.new "/data") Examples.first_run = false /\
  CertificateManager.initialize (CertificateManager.new "/data", snd Examples.initialized)
  = (Ok tt, (fst (snd (CertificateManager.initialize
                         (CertificateManager.new "/data", Examples.first_run))),
             snd Examples.initialized)).
Proof.
  assert (CertificateManager.both_exist (CertificateManager.new "/data") Examples.first_run
          = false) as Hm by (vm_compute; reflexivity).
  split; [exact Hm|].
  apply (initialize_restart_loads_same_ca "/data" Examples.first_run
           (snd Examples.initialized) Hm).
  change (CertificateManager.new "/data") with Examples.manager.
  rewrite first_run_initialize. reflexivity.
Defined.

(** X14. An [initialize] that returns leaves the CA loaded: from then on
    [generateServerCert] succeeds for every hostname, and so do the PEM
    and DER exports. *)
Theorem initialize_ok_then_mint_ok
    (o : CertificateManager.t) (w w2 : World.t) (domain : string)
    (Hok : fst (CertificateManager.initialize (o, w)) = Ok tt) :
  let o' := fst (snd (CertificateManager.initialize (o, w))) in
  CertificateManager.loaded o' /\
  is_ok (fst (CertificateManager.generateServerCert domain (o', w2))) = true /\
  is_ok (fst (CertificateManager.getCertPem (o', w2))) = true /\
  is_ok (fst (CertificateManager.getCertDer (o', w2))) = true /\
  is_ok (fst (CertificateManager.getKeyPem (o', w2))) = true.
Proof.
  intros o'.
  assert (CertificateManager.loaded o') as Hl.
  { subst o'. revert Hok. rewrite initialize_unfold.
    destruct (CertificateManager.both_exist _ _).
    - run_method. unfold CertificateManager.loaded.
      repeat case_match; simplify_eq/=; try discriminate; intros _; split; eauto.
    - intros _. run_method. simpl. split; eauto. }
  split; [exact Hl|]. destruct Hl as [[k Hk] [c Hc]].
  run_method. rewrite Hk, Hc. simpl. auto.
Qed.

Lemma initialize_ok_then_mint_ok_witness :
  fst (CertificateManager.initialize (Examples.manager, Examples.first_run)) = Ok tt /\
  is_ok (fst (CertificateManager.generateServerCert "a.test"
                (fst (snd (CertificateManager.initialize
                             (Examples.manager, Examples.first_run))),
                 Examples.first_run))) = true.
Proof.
  assert (fst (CertificateManager.initialize (Examples.manager, Examples.first_run)) = Ok tt)
    as Hok by (rewrite first_run_initialize; reflexivity).
  split; [exact Hok|].
  pose proof (initialize_ok_then_mint_ok Examples.manager Examples.first_run
                Examples.first_run "a.test" Hok) as H.
  cbv zeta in H. destruct H as (_ & H & _). exact H.
Defined.

(** X15. Files that are there but cannot be parsed are never replaced.
    When both files exist, [initialize] writes no file and draws no
    randomness. If rootCA.key does not hold a private key it throws and
    leaves the object as it was; if the key parses and rootCA.crt does
    not hold a certificate it throws after the key has been taken over,
    with the certificate of the object unchanged. *)
Theorem initialize_unparsable_files
    (o : CertificateManager.t) (w : World.t) (keyData certData : Forge.Pem)
    (Hr : CertificateManager.reachable o)
    (Hkey : World.files (World.fs w) !! CertificateManager.caKeyPath o = Some keyData)
    (Hcert : World.files (World.fs w) !! CertificateManager.caCertPath o = Some certData) :
  let r := fst (CertificateManager.initialize (o, w)) in
  let o' := fst (snd (CertificateManager.initialize (o, w))) in
  let w' := snd (snd (CertificateManager.initialize (o, w))) in
  World.files (World.fs w') = World.files (World.fs w) /\
  World.drawn w' = World.drawn w /\
  (forall msg, Forge.privateKeyFromPem keyData = Throw msg ->
     r = Throw msg /\ o' = o) /\
  (forall k msg,
     Forge.privateKeyFromPem keyData = Ok k ->
     Forge.certificateFromPem certData = Throw msg ->
     r = Throw msg /\
     CertificateManager.caKey o' = Some k /\
     CertificateManager.caCert o' = CertificateManager.caCert o).
Proof.
  intros r o' w'. subst r o' w'.
  apply reachable_well_formed in Hr.
  rewrite initialize_unfold, (both_exist_with_certsDir o w Hr).
  assert (CertificateManager.both_exist o w = true) as ->.
  { unfold CertificateManager.both_exist, World.existsSync. rewrite Hkey, Hcert.
    rewrite !bool_decide_eq_true_2 by eauto. reflexivity. }
  destruct (with_certsDir_fields o w) as (Hf & Hd & _).
  rewrite loadCA_world. split; [exact Hf|]. split; [exact Hd|].
  run_method. rewrite Hf, Hkey. simpl. rewrite ?Hf, Hcert. simpl. split.
  - intros msg ->. simpl. auto.
  - intros k msg -> ->. simpl. auto.
Qed.

Lemma initialize_unparsable_files_witness :
  let w := {| World.fs :=
                {| World.files :=
                     <[ "/data/certificates/rootCA.key"%string := Forge.OtherText "" ]>
                       (<[ "/data/certificates/rootCA.crt"%string := Forge.OtherText "" ]> ∅);
                   World.dirs := ∅ |};
              World.trace := [];
              World.random := fun n => Z.of_nat n;
              World.drawn := 0;
              World.clock := World.clock Examples.first_run;
              World.reads := 0 |} in
  CertificateManager.reachable Examples.manager /\
  World.files (World.fs w) !! CertificateManager.caKeyPath Examples.manager
  = Some (Forge.OtherText "") /\
  World.files (World.fs w) !! CertificateManager.caCertPath Examples.manager
  = Some (Forge.OtherText "") /\
  World.files (World.fs (snd (snd (CertificateManager.initialize (Examples.manager, w)))))
  = World.files (World.fs w).
Proof.
  intros w.
  assert (World.files (World.fs w) !! CertificateManager.caKeyPath Examples.manager
          = Some (Forge.OtherText "")) as Hk by (vm_compute; reflexivity).
  assert (World.files (World.fs w) !! CertificateManager.caCertPath Examples.manager
          = Some (Forge.OtherText "")) as Hc by (vm_compute; reflexivity).
  split; [constructor|]. split; [exact Hk|]. split; [exact Hc|].
  apply (initialize_unparsable_files Examples.manager w _ _
           (CertificateManager.reachable_new "/data") Hk Hc).
Defined.

(** X16. A leaf minted after the CA was generated chains to it: its
    issuer is the subject of the CA certificate and its signature was
    made with the private half of the key that certificate carries. *)
Theorem generated_ca_signs_leaf
    (o : CertificateManager.t) (w w2 : World.t) (domain : string)
    (Hr : CertificateManager.reachable o)
    (Hmiss : CertificateManager.both_exist o w = false) :
  let o' := fst (snd (CertificateManager.initialize (o, w))) in
  exists k leaf ca,
    CertificateManager.caCert o' = Some ca /\
    fst (CertificateManager.generateServerCert domain (o', w2))
    = Ok {| CertificateManager.key := Forge.PrivateKeyPem k;
            CertificateManager.cert := Forge.CertificatePem leaf |} /\
    Spec.chains_to leaf ca /\
    Forge.cert_publicKey leaf
    = Forge.publicKey (Forge.keyPairOf (Forge.sk_bits k) (Forge.sk_material k)) /\
    In {| Forge.name := "commonName"; Forge.value := domain |} (Forge.subject leaf).
Proof.
  intros o'. subst o'.
  apply reachable_well_formed in Hr.
  destruct (initialize_generates o w Hr Hmiss) as (k & c & w' & Hrun & _).
  pose proof (initialize_root_ca_key o w Hr Hmiss) as Hpub.
  rewrite Hrun in Hpub |- *. simpl in Hpub |- *.
  specialize (Hpub k c eq_refl eq_refl).
  run_method. simpl. eexists _, _, _. split; [reflexivity|]. split; [reflexivity|].
  split; [|split; [reflexivity | left; reflexivity]].
  split; [reflexivity|]. eexists _, _. split; [reflexivity|]. exact Hpub.
Qed.

Lemma generated_ca_signs_leaf_witness :
  CertificateManager.reachable Examples.manager /\
  CertificateManager.both_exist Examples.manager Examples.first_run = false /\
  exists k leaf ca,
    CertificateManager.caCert
      (fst (snd (CertificateManager.initialize (Examples.manager, Examples.first_run))))
    = Some ca /\
    fst (CertificateManager.generateServerCert "a.test"
           (fst (snd (CertificateManager.initialize (Examples.manager, Examples.first_run))),
            Examples.first_run))
    = Ok {| CertificateManager.key := Forge.PrivateKeyPem k;
            CertificateManager.cert := Forge.CertificatePem leaf |} /\
    Spec.chains_to leaf ca.
Proof.
  assert (CertificateManager.both_exist Examples.manager Examples.first_run = false) as Hm
    by (vm_compute; reflexivity).
  split; [constructor|]. split; [exact Hm|].
  destruct (generated_ca_signs_leaf Examples.manager Examples.first_run Examples.first_run
              "a.test" (CertificateManager.reachable_new "/data") Hm)
    as (k & leaf & ca & H1 & H2 & H3 & _).
  exists k, leaf, ca. auto.
Defined.

(** * Properties of the network helpers and of the certificate server *)

Section NetworkFacts.
Import Network.

Lemma first_external_hd (infos : list NetworkInterfaceInfo) :
  first_external infos = head (map address (List.filter external_ipv4 infos)).
Proof.
  induction infos as [|info infos IH]; simpl; [reflexivity|].
  destruct (external_ipv4 info); [reflexivity | exact IH].
Qed.

Lemma push_external_app (ips : list string) (infos : list NetworkInterfaceInfo) :
  push_external ips infos = ips ++ map address (List.filter external_ipv4 infos).
Proof.
  revert ips. induction infos as [|info infos IH]; intros ips; simpl.
  - now rewrite app_nil_r.
  - rewrite IH. destruct (external_ipv4 info); simpl; [|reflexivity].
    now rewrite <- app_assoc.
Qed.

Lemma getAllLocalIps_loop_app (ips : list string) (interfaces : NetworkInterfaces) :
  getAllLocalIps_loop ips interfaces = ips ++ external_addresses interfaces.
Proof.
  revert ips. induction interfaces as [|[name [infos|]] rest IH]; intros ips; simpl.
  - now rewrite app_nil_r.
  - rewrite IH, push_external_app. now rewrite <- app_assoc.
  - apply IH.
Qed.

Lemma getLocalIp_loop_hd (interfaces : NetworkInterfaces) :
  getLocalIp_loop interfaces = head (external_addresses interfaces).
Proof.
  induction interfaces as [|[name [infos|]] rest IH]; simpl; [reflexivity| |exact IH].
  rewrite first_external_hd, IH.
  destruct (map address (List.filter external_ipv4 infos)); reflexivity.
Qed.

End NetworkFacts.

(** X17. [getAllLocalIps] lists the addresses of the interfaces that are
    IPv4 and not internal, in system order, and the loopback address
    alone when there is none; it is never empty, and [getLocalIp] is its
    first element. *)
Theorem getLocalIp_is_first_of_getAllLocalIps (interfaces : Network.NetworkInterfaces) :
  Network.getAllLocalIps interfaces
  = (if decide (Network.external_addresses interfaces = [])
     then ["127.0.0.1"%string]
     else Network.external_addresses interfaces) /\
  Network.getAllLocalIps interfaces <> [] /\
  head (Network.getAllLocalIps interfaces) = Some (Network.getLocalIp interfaces) /\
  (Network.getLocalIp interfaces = "127.0.0.1"%string \/
   exists name infos info,
     In (name, Some infos) interfaces /\ In info infos /\
     Network.family info = "IPv4"%string /\ Network.internal info = false /\
     Network.address info = Network.getLocalIp interfaces).
Proof.
  unfold Network.getAllLocalIps, Network.getLocalIp.
  rewrite getAllLocalIps_loop_app, getLocalIp_loop_hd. simpl.
  destruct (Network.external_addresses interfaces) as [|a rest] eqn:E; simpl.
  - split; [reflexivity|].
    split; [discriminate|]. split; [reflexivity|]. left. reflexivity.
  - split; [reflexivity|].
    split; [discriminate|]. split; [reflexivity|]. right.
    assert (In a (Network.external_addresses interfaces)) as Hin by (rewrite E; now left).
    unfold Network.external_addresses in Hin.
    apply in_flat_map in Hin as ([name [infos|]] & Hentry & Ha); simpl in Ha; [|contradiction].
    apply in_map_iff in Ha as (info & <- & Hinfo).
    apply filter_In in Hinfo as [Hinfo Hext].
    unfold Network.external_ipv4 in Hext. apply andb_true_iff in Hext as [Hfam Hint].
    apply String.eqb_eq in Hfam. apply negb_true_iff in Hint.
    exists name, infos, info. auto.
Qed.

Section CertServerFacts.
Import CertServer.

Lemma reachable_running_has_server (this : t) :
  reachable this -> running this = true -> server this = true.
Proof.
  induction 1 as [| this p outcome Hr IH | this Hr IH]; simpl.
  - discriminate.
  - unfold start. destruct (running this) eqn:E; simpl; [auto|].
    destruct outcome; simpl; [reflexivity | discriminate].
  - unfold stop. destruct this as [[] prt []]; simpl in *; auto.
Qed.

End CertServerFacts.

(** X18. In every state the certificate server can reach, [stop] leaves
    it not running, and a second [stop] changes nothing. While it runs,
    [start] returns at once and changes nothing, so the port it serves
    on cannot be changed without stopping it first. *)
Theorem certServer_stop_always_stops
    (this : CertServer.t) (Hr : CertServer.reachable this) :
  CertServer.isRunning (CertServer.stop this) = false /\
  CertServer.stop (CertServer.stop this) = CertServer.stop this /\
  (CertServer.isRunning this = true ->
   forall p outcome, CertServer.start this p outcome = (Ok tt, this)).
Proof.
  pose proof (reachable_running_has_server this Hr) as Hinv.
  unfold CertServer.isRunning, CertServer.stop, CertServer.start.
  destruct this as [srv prt run]; simpl in *.
  destruct run; simpl.
  - rewrite (Hinv eq_refl). simpl. repeat split.
  - rewrite orb_true_r. simpl. rewrite orb_true_r. repeat split. discriminate.
Qed.

Lemma certServer_stop_always_stops_witness :
  let this := snd (CertServer.start CertServer.new (Some 8889) CertServer.listening) in
  CertServer.reachable this /\
  CertServer.isRunning this = true /\
  CertServer.isRunning (CertServer.stop this) = false /\
  CertServer.start this (Some 9000) CertServer.listening = (Ok tt, this).
Proof.
  intros this.
  assert (CertServer.reachable this) as Hr by (repeat constructor).
  split; [exact Hr|]. split; [reflexivity|].
  destruct (certServer_stop_always_stops this Hr) as (H1 & _ & H3).
  split; [exact H1|]. apply H3. reflexivity.
Defined.

(** X19. A [start] on a server that is not running listens on the port
    it is given, or on the port it had (8889 at first) when it is given
    none or 0; after a [start] that failed the server is still not
    running, remembers the port it tried, and can be started again. *)
Theorem certServer_start_port
    (this : CertServer.t) (p : option Z) (Hstopped : CertServer.isRunning this = false) :
  let wanted := match p with
                | Some n => if n =? 0 then CertServer.port this else n
                | None => CertServer.port this
                end in
  (exists this',
     CertServer.start this p CertServer.listening = (Ok tt, this') /\
     CertServer.isRunning this' = true /\ CertServer.port this' = wanted) /\
  (forall err, exists this',
     CertServer.start this p (CertServer.listen_error err) = (Throw err, this') /\
     CertServer.isRunning this' = false /\ CertServer.port this' = wanted /\
     CertServer.stop this' = this' /\
     exists this'',
       CertServer.start this' None CertServer.listening = (Ok tt, this'') /\
       CertServer.isRunning this'' = true /\ CertServer.port this'' = wanted).
Proof.
  cbv zeta. unfold CertServer.isRunning in *.
  unfold CertServer.start, CertServer.stop, CertServer.truthy_port. rewrite Hstopped.
  split.
  - eexists. split; [reflexivity|]. simpl. split; [reflexivity|].
    destruct p as [n|]; [destruct (n =? 0)|]; reflexivity.
  - intros err. eexists. split; [reflexivity|]. simpl. rewrite ?Hstopped. simpl.
    split; [reflexivity|].
    split; [destruct p as [n|]; [destruct (n =? 0)|]; reflexivity|].
    split; [reflexivity|].
    eexists. split; [reflexivity|]. simpl. split; [reflexivity|].
    destruct p as [n|]; [destruct (n =? 0)|]; reflexivity.
Qed.

Lemma certServer_start_port_witness :
  CertServer.isRunning CertServer.new = false /\
  exists this',
    CertServer.start CertServer.new None CertServer.listening = (Ok tt, this') /\
    CertServer.isRunning this' = true /\ CertServer.port this' = 8889.
Proof.
  split; [reflexivity|].
  apply (certServer_start_port CertServer.new None eq_refl).
Defined.

(** X20. The certificate download routes answer 500 with the text
    "Failed to get certificate", and no attachment header, exactly when
    the CA is not loaded; otherwise they answer 200 with the PEM,
    respectively the DER, of the CA certificate the manager holds. Every
    answer starts with the three CORS headers. *)
Theorem certServer_download_routes
    (o : CertificateManager.t) (w : World.t) (Hr : CertificateManager.reachable o) :
  (CertificateManager.loaded o ->
   exists c,
     CertificateManager.caCert o = Some c /\
     CertServer.get_cert (o, w)
     = CertServer.cors ++
       [ CertServer.res_setHeader "Content-Type" "application/x-pem-file";
         CertServer.res_setHeader "Content-Disposition"
           ("attachment; filename=" +:+ CertServer.dquote +:+ "TrafexiaCA.pem"
            +:+ CertServer.dquote);
         CertServer.res_send (CertServer.sent_pem (Forge.CertificatePem c)) ] /\
     CertServer.get_cert_der (o, w)
     = CertServer.cors ++
       [ CertServer.res_setHeader "Content-Type" "application/x-x509-ca-cert";
         CertServer.res_setHeader "Content-Disposition"
           ("attachment; filename=" +:+ CertServer.dquote +:+ "TrafexiaCA.der"
            +:+ CertServer.dquote);
         CertServer.res_send (CertServer.sent_der (Forge.CertificateDer c)) ]) /\
  (~ CertificateManager.loaded o ->
   CertServer.get_cert (o, w)
   = CertServer.cors ++
     [ CertServer.res_status 500;
       CertServer.res_send (CertServer.sent_text "Failed to get certificate") ] /\
   CertServer.get_cert_der (o, w) = CertServer.get_cert (o, w)) /\
  (CertServer.status_of (CertServer.get_cert (o, w)) 200 = 500 <->
   ~ CertificateManager.loaded o) /\
  (CertServer.status_of (CertServer.get_cert_der (o, w)) 200 = 500 <->
   ~ CertificateManager.loaded o).
Proof.
  apply reachable_well_formed in Hr. destruct Hr as [_ Hinv].
  unfold CertServer.get_cert, CertServer.get_cert_der, CertificateManager.loaded.
  run_method.
  destruct (CertificateManager.caCert o) as [c|] eqn:Hc; simpl.
  - assert (is_Some (CertificateManager.caKey o) /\ is_Some (Some c)) as Hl
      by (split; eauto).
    split; [intros _; exists c; repeat split|].
    split; [intros H; contradiction (H Hl)|].
    split; (split; [discriminate | intros H; contradiction (H Hl)]).
  - assert (~ (is_Some (CertificateManager.caKey o) /\ is_Some (@None Forge.Certificate)))
      as Hn by (intros [_ [x Hx]]; discriminate Hx).
    split; [intros H; contradiction (Hn H)|].
    split; [intros _; split; reflexivity|].
    split; (split; [intros _; exact Hn | reflexivity]).
Qed.

Lemma certServer_download_routes_witness :
  CertificateManager.reachable Examples.manager /\
  ~ CertificateManager.loaded Examples.manager /\
  CertServer.status_of (CertServer.get_cert (Examples.manager, Examples.first_run)) 200 = 500.
Proof.
  assert (~ CertificateManager.loaded Examples.manager) as Hn
    by (intros [[x Hx] _]; discriminate Hx).
  split; [constructor|]. split; [exact Hn|].
  apply (certServer_download_routes Examples.manager Examples.first_run
           (CertificateManager.reachable_new "/data")).
  exact Hn.
Defined.

(** * Properties of the formatters and exporters *)

Section FormatterFacts.
Import Formatters.

Lemma length_append (a b : string) :
  String.length (a +:+ b) = (String.length a + String.length b)%nat.
Proof. induction a as [|c a IH]; simpl; [reflexivity | now rewrite IH]. Qed.


Lemma substring_prefix (n : nat) (s : string) :
  (n <= String.length s)%nat ->
  String.length (String.substring 0 n s) = n /\
  exists rest, s = String.substring 0 n s +:+ rest.
Proof.
  revert s. induction n as [|n IH]; intros s Hn.
  - destruct s; simpl; split; eauto.
  - destruct s as [|c s]; simpl in *; [lia|].
    destruct (IH s ltac:(lia)) as [Hl [rest Hr]].
    split; [now rewrite Hl|]. exists rest.
    change (String c s = String c (String.substring 0 n s +:+ rest)).
    f_equal. exact Hr.
Qed.

Lemma add_headers_filter (keep : string -> bool) (headers : TrafficStorage.Headers)
    (curl : string) :
  add_headers keep headers curl
  = add_headers (fun _ => true) (List.filter (fun kv => keep (fst kv)) headers) curl.
Proof.
  revert curl. induction headers as [|[key value] rest IH]; intros curl; simpl;
    [reflexivity|].
  destruct (keep key); simpl; apply IH.
Qed.

Lemma add_headers_filter_keep (keep keep' : string -> bool)
    (headers : TrafficStorage.Headers) (curl : string) :
  (forall key, keep key = true -> keep' key = true) ->
  add_headers keep (List.filter (fun kv => keep' (fst kv)) headers) curl
  = add_headers keep headers curl.
Proof.
  intros H. revert curl. induction headers as [|[key value] rest IH]; intros curl; simpl;
    [reflexivity|].
  destruct (keep' key) eqn:E'; simpl.
  - apply IH.
  - destruct (keep key) eqn:E; [apply H in E; congruence|]. apply IH.
Qed.

Lemma filter_and {A} (p q : A -> bool) (l : list A) :
  List.filter p (List.filter q l) = List.filter (fun x => (q x && p x)%bool) l.
Proof.
  induction l as [|x l IH]; simpl; [reflexivity|].
  destruct (q x); simpl; [destruct (p x); now rewrite IH | exact IH].
Qed.

End FormatterFacts.

(** X21. For a maximum length of at least 3 (80 when none is given),
    [truncateUrl] never returns more than that many characters: a URL
    that fits is returned as it is, a longer one is cut to its first
    maxLength - 3 characters followed by three dots, exactly maxLength
    characters in all. *)
Theorem truncateUrl_bound (url : string) (maxLength : option Z)
    (Hmax : 3 <= match maxLength with Some m => m | None => 80 end) :
  let m := match maxLength with Some m => m | None => 80 end in
  let out := Formatters.truncateUrl url maxLength in
  Z.of_nat (String.length out) <= m /\
  (Z.of_nat (String.length url) <= m -> out = url) /\
  (m < Z.of_nat (String.length url) ->
   Z.of_nat (String.length out) = m /\
   exists kept rest,
     url = kept +:+ rest /\ Z.of_nat (String.length kept) = m - 3 /\
     out = kept +:+ "...").
Proof.
  intros m out. subst out. unfold Formatters.truncateUrl. fold m.
  destruct (Z.leb_spec (Z.of_nat (String.length url)) m) as [Hfit | Hlong].
  - split; [exact Hfit|]. split; [reflexivity | lia].
  - unfold Formatters.substring_to.
    destruct (substring_prefix (Z.to_nat (m - 3)) url ltac:(lia)) as [Hl [rest Hr]].
    assert (Z.of_nat (String.length
                        (String.substring 0 (Z.to_nat (m - 3)) url +:+ "...")) = m) as Hout
      by (rewrite length_append, Hl; simpl; lia).
    split; [lia|]. split; [lia|]. intros _. split; [exact Hout|].
    exists (String.substring 0 (Z.to_nat (m - 3)) url), rest.
    split; [exact Hr|]. split; [rewrite Hl; lia | reflexivity].
Qed.

Lemma truncateUrl_bound_witness :
  3 <= 10 /\
  Z.of_nat (String.length
              (Formatters.truncateUrl "http://example.test/a/long/path" (Some 10))) <= 10.
Proof.
  split; [lia|].
  apply (truncateUrl_bound "http://example.test/a/long/path" (Some 10)). simpl. lia.
Defined.

(** X22. [decodeJwt] returns null unless the token consists of exactly
    three parts separated by dots, and it never looks at the third part:
    two tokens that differ only in their signature decode alike. *)
Theorem decodeJwt_ignores_signature
    (Json : Type) (atob : string -> result string) (JSON_parse : string -> result Json)
    (p0 p1 sig sig' : string)
    (H0 : Forall (fun c => Ascii.eqb c "." = false) (String.list_ascii_of_string p0))
    (H1 : Forall (fun c => Ascii.eqb c "." = false) (String.list_ascii_of_string p1))
    (Hs : Forall (fun c => Ascii.eqb c "." = false) (String.list_ascii_of_string sig))
    (Hs' : Forall (fun c => Ascii.eqb c "." = false) (String.list_ascii_of_string sig')) :
  Formatters.decodeJwt Json atob JSON_parse (p0 +:+ "." +:+ p1 +:+ "." +:+ sig)
  = Formatters.decodeJwt Json atob JSON_parse (p0 +:+ "." +:+ p1 +:+ "." +:+ sig') /\
  (forall token,
     Formatters.decodeJwt Json atob JSON_parse token <> None ->
     length (Formatters.split_on_dots token) = 3%nat) /\
  Formatters.decodeJwt Json atob JSON_parse (p0 +:+ "." +:+ p1) = None.
Proof.
  assert (forall s, Forall (fun c => Ascii.eqb c "." = false) (String.list_ascii_of_string s) ->
            Formatters.split_on_dots (p0 +:+ "." +:+ p1 +:+ "." +:+ s) = [p0; p1; s]) as Hsplit.
  { intros s Hd. unfold Formatters.split_on_dots.
    rewrite !list_ascii_of_append. simpl.
    rewrite !split_dots_app, split_dots_group by assumption.
    simpl. now rewrite !String.string_of_list_ascii_of_string. }
  split; [|split].
  - unfold Formatters.decodeJwt. now rewrite (Hsplit sig Hs), (Hsplit sig' Hs').
  - intros token. unfold Formatters.decodeJwt.
    destruct (Formatters.split_on_dots token) as [|a [|b [|c [|d l]]]];
      try (intros H; now contradiction H). reflexivity.
  - unfold Formatters.decodeJwt, Formatters.split_on_dots.
    rewrite !list_ascii_of_append. simpl.
    now rewrite split_dots_app, split_dots_group by assumption.
Qed.

Lemma decodeJwt_ignores_signature_witness :
  Formatters.decodeJwt string Ok Ok "eyJh.eyJw.c2ln"
  = Formatters.decodeJwt string Ok Ok "eyJh.eyJw.forged".
Proof.
  apply (decodeJwt_ignores_signature string Ok Ok "eyJh" "eyJw" "c2ln" "forged");
    repeat constructor.
Defined.

Section ShellFacts.
Import Formatters.











End ShellFacts.




(** X24. Host headers add nothing to an exported cURL command, and the
    two exporters differ only in the Content-Length headers:
    [generateCurl] gives what [exportAsCurl] gives for the request
    without its Content-Length headers. *)
Theorem curl_exporters_agree (request : TrafficStorage.CapturedRequest) :
  Formatters.exportAsCurl request
  = Formatters.exportAsCurl
      (Formatters.with_requestHeaders
         (List.filter (fun kv => Formatters.not_host (fst kv))
            (TrafficStorage.requestHeaders request)) request) /\
  Formatters.generateCurl request
  = Formatters.exportAsCurl
      (Formatters.with_requestHeaders
         (List.filter
            (fun kv => negb (String.eqb (Formatters.toLowerCase (fst kv)) "content-length"))
            (TrafficStorage.requestHeaders request)) request).
Proof.
  unfold Formatters.exportAsCurl, Formatters.generateCurl. simpl.
  split; f_equal.
  - symmetry. apply add_headers_filter_keep. auto.
  - change (Formatters.curl_head (Formatters.with_requestHeaders _ request))
      with (Formatters.curl_head request).
    rewrite (add_headers_filter Formatters.not_host_nor_length).
    rewrite (add_headers_filter Formatters.not_host (List.filter _ _)).
    f_equal. rewrite filter_and. apply filter_ext. intros [key value]. simpl.
    unfold Formatters.not_host_nor_length, Formatters.not_host. apply andb_comm.
Qed.

Section SelectionFacts.
Import FilterPanel.

Lemma indexOf_None (x : string) (l : list string) : indexOf x l = None <-> ~ In x l.
Proof.
  induction l as [|y l IH]; simpl; [tauto|].
  destruct (String.eqb_spec y x) as [-> | N].
  - split; [discriminate | intros H; contradiction H; auto].
  - destruct (indexOf x l); simpl.
    + split; [discriminate|]. intros H. exfalso.
      destruct (in_dec String.string_dec x l) as [Hx | Hx]; [apply H; now right|].
      apply IH in Hx. discriminate.
    + split; [|reflexivity]. intros _ [E | H]; [congruence|]. now apply IH.
Qed.

Lemma indexOf_Some (x : string) (l : list string) (i : nat) :
  indexOf x l = Some i ->
  exists pre post, l = pre ++ x :: post /\ ~ In x pre /\ splice1 i l = pre ++ post.
Proof.
  revert i. induction l as [|y l IH]; intros i; simpl; [discriminate|].
  destruct (String.eqb_spec y x) as [-> | N].
  - intros [= <-]. exists [], l. auto.
  - destruct (indexOf x l) as [j|]; simpl; [|discriminate].
    intros [= <-]. destruct (IH j eq_refl) as (pre & post & -> & Hpre & Hs).
    exists (y :: pre), post. simpl. rewrite Hs.
    split; [reflexivity|]. split; [|reflexivity]. intros [E | H]; auto.
Qed.

Lemma map_result_total {A B} (f : A -> result B) (g : A -> B) (l : list A) :
  (forall x, f x = Ok (g x)) -> Ipc.map_result f l = Ok (map g l).
Proof.
  intros H. induction l as [|x l IH]; simpl; [reflexivity|]. now rewrite H, IH.
Qed.

Lemma non_null_In {A} (l : list (option A)) (x : A) : In x (Ipc.non_null l) <-> In (Some x) l.
Proof.
  induction l as [|[y|] l IH]; simpl; [tauto| |].
  - rewrite IH. split; intros [E | H]; auto; left; congruence.
  - rewrite IH. split; [auto|]. intros [E | H]; [discriminate | exact H].
Qed.

Lemma non_null_length {A} (l : list (option A)) : (length (Ipc.non_null l) <= length l)%nat.
Proof. induction l as [|[y|] l IH]; simpl; lia. Qed.

End SelectionFacts.

(** X25. A click on a filter chip flips its selection and nothing else:
    if no name is selected twice, then after [toggleMethod] (or
    [toggleStatus]) the name is selected exactly when it was not before,
    every other name is selected as before, and still no name is
    selected twice. *)
Theorem toggle_flips_selection (x : string) (selected : list string)
    (Hnd : NoDup selected) :
  NoDup (FilterPanel.toggle x selected) /\
  (In x (FilterPanel.toggle x selected) <-> ~ In x selected) /\
  (forall y, y <> x -> In y (FilterPanel.toggle x selected) <-> In y selected).
Proof.
  unfold FilterPanel.toggle.
  destruct (FilterPanel.indexOf x selected) as [i|] eqn:E.
  - destruct (indexOf_Some _ _ _ E) as (pre & post & -> & Hpre & ->).
    apply NoDup_app in Hnd as (Hn1 & Hdisj & Hn2).
    apply NoDup_cons in Hn2 as [Hx Hn2].
    rewrite list_elem_of_In in Hx.
    split; [|split].
    + apply NoDup_app. split; [exact Hn1|]. split; [|exact Hn2].
      intros y Hy Hy'. apply (Hdisj y Hy). now right.
    + rewrite !in_app_iff. simpl. tauto.
    + intros y Hy. rewrite !in_app_iff. simpl. split; [tauto|].
      intros [H | [H | H]]; auto. congruence.
  - apply indexOf_None in E. split; [|split].
    + apply NoDup_app. split; [exact Hnd|]. split; [|apply NoDup_singleton].
      intros y Hy Hy'. apply list_elem_of_In in Hy, Hy'. destruct Hy' as [<- | []].
      contradiction.
    + rewrite in_app_iff. simpl. tauto.
    + intros y Hy. rewrite in_app_iff. simpl. split; [|auto].
      intros [H | [H | []]]; [exact H | congruence].
Qed.

Lemma toggle_flips_selection_witness :
  NoDup ["GET"%string; "POST"%string] /\
  NoDup (FilterPanel.toggle "GET" ["GET"%string; "POST"%string]) /\
  (In "GET"%string (FilterPanel.toggle "GET" ["GET"%string; "POST"%string]) <->
   ~ In "GET"%string ["GET"%string; "POST"%string]).
Proof.
  assert (NoDup ["GET"%string; "POST"%string]) as Hnd.
  { repeat constructor; rewrite list_elem_of_In; simpl; intuition discriminate. }
  split; [exact Hnd|].
  destruct (toggle_flips_selection "GET" ["GET"%string; "POST"%string] Hnd) as (H1 & H2 & _).
  split; assumption.
Defined.

(** X26. The export handler never fails on ids that are no longer
    stored: with a non-empty list of ids it writes out exactly the
    exchanges that [getRequestById] finds for them, at most one per id
    given, and skips the others; with no ids it writes out what
    [getRequests] returns under a limit of 10000, never more than 10000
    exchanges. *)
Theorem export_requests_selection (d : TrafficStorage.Database) (ids : option (list Z)) :
  exists rs,
    Ipc.export_requests {| TrafficStorage.db := Some d |} ids = Ok rs /\
    (forall l, ids = Some l -> l <> [] ->
       (length rs <= length l)%nat /\
       forall r, In r rs <->
                 exists i, In i l /\
                   TrafficStorage.getRequestById {| TrafficStorage.db := Some d |} i
                   = Ok (Some r)) /\
    (ids = None \/ ids = Some [] ->
       TrafficStorage.getRequests {| TrafficStorage.db := Some d |} (Some Ipc.limit_10000)
       = Ok rs /\
       Z.of_nat (length rs) <= 10000).
Proof.
  assert (forall rows,
            Z.of_nat (length (map TrafficStorage.mapRowToRequest
                                (TrafficStorage.paginate (Some Ipc.limit_10000) rows)))
            <= 10000) as Hlen.
  { intros rows.
    unfold TrafficStorage.paginate, Ipc.limit_10000, TrafficStorage.truthy_number.
    cbn [TrafficStorage.limit TrafficStorage.offset].
    change (10000 =? 0) with false. cbv iota.
    unfold Sqlite.limit_offset. change (10000 <? 0) with false. cbv iota.
    rewrite length_map, length_take. lia. }
  unfold Ipc.export_requests.
  destruct ids as [[|i l]|]; simpl TrafficStorage.non_empty; cbv iota.
  - eexists. split; [reflexivity|]. split; [intros l' [= <-] N; now contradiction N|].
    intros _. split; [reflexivity|]. apply Hlen.
  - rewrite (map_result_total _
               (fun j => option_map TrafficStorage.mapRowToRequest
                           (find (fun r => TrafficStorage.id r =? j)
                              (TrafficStorage.requests d)))) by reflexivity.
    eexists. split; [reflexivity|]. split.
    + intros l' [= <-] _. split.
      * etransitivity; [apply non_null_length|]. now rewrite length_map.
      * intros r. rewrite non_null_In, in_map_iff.
        unfold TrafficStorage.getRequestById. simpl.
        split; intros (j & H1 & H2); exists j.
        -- split; [exact H2 | congruence].
        -- injection H2 as H2. split; [exact H2 | exact H1].
    + intros [H | H]; discriminate H.
  - eexists. split; [reflexivity|]. split; [intros l' [=]|].
    intros _. split; [reflexivity|]. apply Hlen.
Qed.
